(** * wordcloud-generator: the traversal, extraction and filtering core

    A shallow embedding of [wordcloud_generator.py] (the word pipeline) and
    [wordcloud_languages.py] (the language pipeline), and the properties of
    their specification.

    Conventions of the model.
    - A Python [str] is a [string]; each [ascii] stands for the code point
      of the same number, so the model covers text in U+0000..U+00FF.  The
      character tables ([lower], [isspace], the class [\w]) are Python's
      tables on that range.
    - Paths are POSIX paths ([os.sep] is [/]).
    - A directory tree is a finite tree of named directories and file
      names; symbolic links are left out.  What [open(...).read()] gives
      for a path is a parameter of the word pipeline.
    - [fnmatch.fnmatch] is an interface ([GlobMatcher]); the statements hold
      for every matcher, and [fnmatchcase] is the instance used to evaluate
      the code on concrete inputs.
    - Counters are natural numbers, dictionaries are [gmap]s, text written
      to a stream is a list of lines. *)

From Stdlib Require Import Ascii String List NArith ZArith Lia Bool Sorted.
From stdpp Require Import gmap strings list fin_maps.

(* ===================================================================== *)
(** ** Python [str] primitives *)
(* ===================================================================== *)

Module PyStr.

(** [ord(c)] *)
Definition ord (c : ascii) : N := N_of_ascii c.

(** [chr(n)] on the modelled range *)
Definition chr (n : N) : ascii := ascii_of_N n.

Definition in_range (lo hi : N) (c : ascii) : bool :=
  (lo <=? ord c)%N && (ord c <=? hi)%N.

(** The character set [[a-zA-Z]] of the regular expression. *)
Definition is_ascii_letter (c : ascii) : bool :=
  in_range 97 122 c || in_range 65 90 c.

(** [c.isalnum() or c == '_']: the class [\w] of a [str] pattern.  Above
    U+007F it holds the Latin-1 letters, the superscript digits and the
    vulgar fractions. *)
Definition is_word (c : ascii) : bool :=
  is_ascii_letter c || in_range 48 57 c || (ord c =? 95)%N
  || (ord c =? 170)%N || in_range 178 179 c || (ord c =? 181)%N
  || in_range 185 186 c || in_range 188 190 c
  || in_range 192 214 c || in_range 216 246 c || in_range 248 255 c.

(** [c.isspace()] *)
Definition isspace (c : ascii) : bool :=
  in_range 9 13 c || in_range 28 32 c || (ord c =? 133)%N || (ord c =? 160)%N.

(** [c.lower()] for one character: A-Z, and the Latin-1 capitals
    U+00C0..U+00DE except the multiplication sign. *)
Definition lower_char (c : ascii) : ascii :=
  if in_range 65 90 c || in_range 192 214 c || in_range 216 222 c
  then chr (ord c + 32) else c.

(** [s.lower()] *)
Fixpoint lower (s : string) : string :=
  match s with
  | EmptyString => EmptyString
  | String c s' => String (lower_char c) (lower s')
  end.

(** [s.startswith(p)] *)
Fixpoint startswith (s p : string) : bool :=
  match p, s with
  | EmptyString, _ => true
  | String _ _, EmptyString => false
  | String a p', String b s' => Ascii.eqb a b && startswith s' p'
  end.

(** [s.endswith(p)] *)
Fixpoint endswith (s p : string) : bool :=
  String.eqb s p
  || match s with
     | EmptyString => false
     | String _ s' => endswith s' p
     end.

(** [s.lstrip()] *)
Fixpoint lstrip (s : string) : string :=
  match s with
  | EmptyString => EmptyString
  | String c s' => if isspace c then lstrip s' else s
  end.

(** [s.rstrip()] *)
Fixpoint rstrip (s : string) : string :=
  match s with
  | EmptyString => EmptyString
  | String c s' =>
      match rstrip s' with
      | EmptyString => if isspace c then EmptyString else String c EmptyString
      | r => String c r
      end
  end.

(** [s.strip()] *)
Definition strip (s : string) : string := lstrip (rstrip s).

(** [sep in s] for a one-character [sep] *)
Fixpoint contains (sep : ascii) (s : string) : bool :=
  match s with
  | EmptyString => false
  | String c s' => Ascii.eqb c sep || contains sep s'
  end.

(** [s.split(sep)] for a one-character [sep] *)
Fixpoint split (sep : ascii) (s : string) : list string :=
  match s with
  | EmptyString => [EmptyString]
  | String c s' =>
      if Ascii.eqb c sep then EmptyString :: split sep s'
      else match split sep s' with
           | h :: t => String c h :: t
           | [] => [String c EmptyString]
           end
  end.

End PyStr.

(* ===================================================================== *)
(** ** The regular expression [\b[a-zA-Z]{2,}\b] and [re.findall] *)
(* ===================================================================== *)

Module Re.
Import PyStr.

(** [\b] at a position: the character before it ([None] at the start of
    the text) and the text from it on.  A boundary is there when exactly
    one of the two neighbours is a word character. *)
Definition at_boundary (prev : option ascii) (rest : string) : bool :=
  xorb (match prev with Some c => is_word c | None => false end)
       (match rest with String c _ => is_word c | EmptyString => false end).

(** The greedy repeat [[a-zA-Z]*]: push every letter it can take on
    [taken] (last taken first). *)
Fixpoint take_letters (taken : list ascii) (rest : string)
  : list ascii * string :=
  match rest with
  | String c rest' =>
      if is_ascii_letter c then take_letters (c :: taken) rest'
      else (taken, rest)
  | EmptyString => (taken, rest)
  end.

(** The tail of the pattern after the repeat: with [taken] letters
    consumed, at least two are needed and the closing [\b] must hold;
    otherwise the repeat gives the last letter back and tries again. *)
Fixpoint backtrack (taken : list ascii) (rest : string)
  : option (list ascii * string) :=
  match taken with
  | c :: taken' =>
      if (2 <=? length taken) && at_boundary (Some c) rest
      then Some (taken, rest)
      else backtrack taken' (String c rest)
  | [] => None
  end.

Definition string_of_rev (taken : list ascii) : string :=
  string_of_list_ascii (rev taken).

(** One match attempt of the whole pattern at a position: the matched
    text, its last character and the text after it. *)
Definition match_at (prev : option ascii) (rest : string)
  : option (string * ascii * string) :=
  if at_boundary prev rest then
    let '(taken, rest') := take_letters [] rest in
    match backtrack taken rest' with
    | Some (c :: taken', rest'') =>
        Some (string_of_rev (c :: taken'), c, rest'')
    | _ => None
    end
  else None.

(** The scan of [findall]: try the pattern at the current position; after
    a match go on behind it, otherwise one character further. *)
Fixpoint scan (fuel : nat) (prev : option ascii) (rest : string)
  : list string :=
  match fuel with
  | O => []
  | S fuel' =>
      match match_at prev rest with
      | Some (word, last, rest') => word :: scan fuel' (Some last) rest'
      | None =>
          match rest with
          | String c rest' => scan fuel' (Some c) rest'
          | EmptyString => []
          end
      end
  end.

(** [re.findall(r"\b[a-zA-Z]{2,}\b", s)]: every position of [s], the end
    included, is tried at most once. *)
Definition findall (s : string) : list string :=
  scan (S (String.length s)) None s.

End Re.

(* ===================================================================== *)
(** ** [fnmatch]: shell-style matching of one name against one pattern *)
(* ===================================================================== *)

(** The matcher the exclusion predicate calls.  The traversal code only
    asks it yes or no, so it is kept as an interface. *)
Class GlobMatcher := fnmatch : string -> string -> bool.

Module Fnmatch.

(** One element of a bracket expression. *)
Inductive item :=
| Lit (c : ascii)
| Range (lo hi : ascii).

(** What [fnmatch.translate] turns a pattern into. *)
Inductive token :=
| Star
| AnyChar
| Char (c : ascii)
| Bracket (negated : bool) (items : list item).

(** The text up to the first closing bracket, and the text behind it. *)
Fixpoint until_close (s : string) : option (string * string) :=
  match s with
  | EmptyString => None
  | String c s' =>
      if Ascii.eqb c "]" then Some (EmptyString, s')
      else match until_close s' with
           | Some (stuff, rest) => Some (String c stuff, rest)
           | None => None
           end
  end.

(** After an opening bracket: an exclamation mark first negates, a
    closing bracket right after that is a member, and the expression ends
    at the next closing bracket.  [None] when there is none. *)
Definition bracket (s : string) : option (bool * string * string) :=
  let '(negated, s1) :=
    match s with
    | String c s' => if Ascii.eqb c "!" then (true, s') else (false, s)
    | EmptyString => (false, s)
    end in
  match s1 with
  | String c s2 =>
      if Ascii.eqb c "]" then
        match until_close s2 with
        | Some (stuff, rest) => Some (negated, String c stuff, rest)
        | None => None
        end
      else
        match until_close s1 with
        | Some (stuff, rest) => Some (negated, stuff, rest)
        | None => None
        end
  | EmptyString => None
  end.

(** Members of a bracket expression: [a-b] is a range, every other
    character stands for itself. *)
Fixpoint items_of (stuff : string) : list item :=
  match stuff with
  | EmptyString => []
  | String a s1 =>
      match s1 with
      | String d (String b s2) =>
          if Ascii.eqb d "-" then Range a b :: items_of s2
          else Lit a :: items_of s1
      | _ => Lit a :: items_of s1
      end
  end.

Fixpoint translate (fuel : nat) (pat : string) : list token :=
  match fuel, pat with
  | S fuel', String c pat' =>
      if Ascii.eqb c "*" then Star :: translate fuel' pat'
      else if Ascii.eqb c "?" then AnyChar :: translate fuel' pat'
      else if Ascii.eqb c "[" then
        match bracket pat' with
        | Some (negated, stuff, rest) =>
            Bracket negated (items_of stuff) :: translate fuel' rest
        | None => Char c :: translate fuel' pat'
        end
      else Char c :: translate fuel' pat'
  | _, _ => []
  end.

Definition item_has (c : ascii) (i : item) : bool :=
  match i with
  | Lit a => Ascii.eqb a c
  | Range lo hi => PyStr.in_range (PyStr.ord lo) (PyStr.ord hi) c
  end.

(** The whole name against the whole token list. *)
Fixpoint match_tokens (ts : list token) : string -> bool :=
  match ts with
  | [] => fun name => match name with EmptyString => true | _ => false end
  | Star :: ts' =>
      fix star (name : string) : bool :=
        match_tokens ts' name
        || match name with
           | String _ name' => star name'
           | EmptyString => false
           end
  | AnyChar :: ts' =>
      fun name =>
        match name with
        | String _ name' => match_tokens ts' name'
        | EmptyString => false
        end
  | Char c :: ts' =>
      fun name =>
        match name with
        | String a name' => Ascii.eqb a c && match_tokens ts' name'
        | EmptyString => false
        end
  | Bracket negated items :: ts' =>
      fun name =>
        match name with
        | String a name' =>
            xorb negated (existsb (item_has a) items)
            && match_tokens ts' name'
        | EmptyString => false
        end
  end.

(** [fnmatch.fnmatchcase(name, pat)]; on POSIX [fnmatch.fnmatch] is the
    same function, [os.path.normcase] being the identity there. *)
Definition fnmatchcase (name pat : string) : bool :=
  match_tokens (translate (String.length pat) pat) name.

End Fnmatch.

#[export] Instance posix_fnmatch : GlobMatcher := Fnmatch.fnmatchcase.

(* ===================================================================== *)
(** ** [os.path] and [pathlib] on POSIX *)
(* ===================================================================== *)

Module PosixPath.
Import PyStr.

Definition sep : ascii := "/"%char.

(** [os.path.join(a, b)] *)
Definition join (a b : string) : string :=
  if startswith b (String sep EmptyString) then b
  else if String.eqb a EmptyString || endswith a (String sep EmptyString)
       then a +:+ b
       else a +:+ String sep b.

(** [os.path.basename(p)]: the text behind the last separator. *)
Fixpoint basename (p : string) : string :=
  match p with
  | EmptyString => EmptyString
  | String _ p' => if contains sep p then basename p' else p
  end.

(** [s.rfind(c)], -1 when [c] does not occur; [i] is the index of the
    first character of [s]. *)
Fixpoint rfind_from (i : Z) (c : ascii) (s : string) : Z :=
  match s with
  | EmptyString => (-1)%Z
  | String a s' =>
      let r := rfind_from (i + 1) c s' in
      if (0 <=? r)%Z then r else if Ascii.eqb a c then i else (-1)%Z
  end.

Definition rfind (c : ascii) (s : string) : Z := rfind_from 0 c s.

(** [p[i:j]] for indices within the string *)
Definition slice (p : string) (i j : Z) : string :=
  String.substring (Z.to_nat i) (Z.to_nat (j - i)) p.

(** The loop of [genericpath._splitext] that skips the leading dots of
    the file name. *)
Fixpoint splitext_loop (fuel : nat) (p : string) (filenameIndex dotIndex : Z)
  : string * string :=
  match fuel with
  | O => (p, EmptyString)
  | S fuel' =>
      if (filenameIndex <? dotIndex)%Z then
        if negb (String.eqb (slice p filenameIndex (filenameIndex + 1)) ".")
        then (slice p 0 dotIndex,
              slice p dotIndex (Z.of_nat (String.length p)))
        else splitext_loop fuel' p (filenameIndex + 1) dotIndex
      else (p, EmptyString)
  end.

(** [os.path.splitext(p)] *)
Definition splitext (p : string) : string * string :=
  let sepIndex := rfind sep p in
  let dotIndex := rfind "." p in
  if (sepIndex <? dotIndex)%Z
  then splitext_loop (S (String.length p)) p (sepIndex + 1) dotIndex
  else (p, EmptyString).

(** [posixpath.splitroot(p)]: the root and the rest.  Exactly two leading
    separators are a root of their own. *)
Definition splitroot (p : string) : string * string :=
  match p with
  | String a p1 =>
      if Ascii.eqb a sep then
        match p1 with
        | String b p2 =>
            if Ascii.eqb b sep then
              match p2 with
              | String c _ =>
                  if Ascii.eqb c sep then (String sep EmptyString, p1)
                  else (String sep (String sep EmptyString), p2)
              | EmptyString => (String sep (String sep EmptyString), p2)
              end
            else (String sep EmptyString, p1)
        | EmptyString => (String sep EmptyString, p1)
        end
      else (EmptyString, p)
  | EmptyString => (EmptyString, p)
  end.

(** A component [pathlib] keeps: not empty and not a single dot. *)
Definition kept_component (x : string) : bool :=
  negb (String.eqb x EmptyString) && negb (String.eqb x ".").

(** [Path(p).parts] *)
Definition parts (p : string) : list string :=
  let '(root, rel) := splitroot p in
  (if String.eqb root EmptyString then [] else [root])
  ++ List.filter kept_component (split sep rel).

End PosixPath.

(* ===================================================================== *)
(** ** Directory trees and [os.walk] *)
(* ===================================================================== *)

(** A directory: its sub-directories by name, and the names of its files. *)
#[local] Unset Elimination Schemes.
Inductive tree :=
| Dir (subdirs : list (string * tree)) (files : list string).

#[local] Set Elimination Schemes.

Definition subdirs_of (t : tree) : list (string * tree) :=
  match t with Dir subdirs _ => subdirs end.

Definition files_of (t : tree) : list string :=
  match t with Dir _ files => files end.

Module OsWalk.

(** The body of a [for root, dirs, files in os.walk(...)] loop: it sees
    the triple and the loop state, and leaves the new state and what it
    has made of the list [dirs], which the generator owns and reads again
    when it is resumed. *)
Definition loop_body (St : Type) : Type :=
  string -> list string -> list string -> St -> list string * St.

(** [os.walk(top)], top-down, driving [body]: yield the triple for [top],
    then walk into each name left in [dirs], in order. *)
Fixpoint os_walk {St : Type} (body : loop_body St)
    (top : string) (t : tree) (st : St) {struct t} : St :=
  match t with
  | Dir subdirs files =>
      let '(dirs, st1) := body top (map fst subdirs) files st in
      fold_left
        (fun acc dirname =>
           (fix enter (l : list (string * tree)) : St :=
              match l with
              | [] => acc
              | (name, sub) :: l' =>
                  if String.eqb name dirname
                  then os_walk body (PosixPath.join top dirname) sub acc
                  else enter l'
              end) subdirs)
        dirs st1
  end.

End OsWalk.

(* ===================================================================== *)
(** ** Exceptions *)
(* ===================================================================== *)

(** A Python call either returns or raises; the exception is kept as its
    message. *)
Inductive outcome (A : Type) :=
| Returned (a : A)
| Raised (e : string).
Arguments Returned {A} a.
Arguments Raised {A} e.

(** The exclusion list on disk, as [load_exclude_patterns] finds it: no
    such path ([os.path.exists] is false); a path that exists and that
    [open], or reading the lines, raises on (a directory, a file without
    read permission, bytes that do not decode), with the message of the
    exception; or a file read as the text [content]. *)
Inductive exclude_file :=
| Missing
| Unreadable (e : string)
| Text (content : string).

(** Iterating a file opened in text mode: the lines, each with its line
    end, which universal newlines turn into a line feed. *)
Fixpoint file_lines (s : string) : list string :=
  match s with
  | EmptyString => []
  | String c s' =>
      if Ascii.eqb c "010" then String "010" EmptyString :: file_lines s'
      else if Ascii.eqb c "013" then
        match s' with
        | String c' s'' =>
            if Ascii.eqb c' "010"
            then String "010" EmptyString :: file_lines s''
            else String "010" EmptyString :: file_lines s'
        | EmptyString => [String "010" EmptyString]
        end
      else
        match file_lines s' with
        | line :: lines => String c line :: lines
        | [] => [String c EmptyString]
        end
  end.

(* ===================================================================== *)
(** ** [wordcloud_generator.py] *)
(* ===================================================================== *)

Module Generator.
Import PyStr PosixPath OsWalk.

(** [load_exclude_patterns(exclude_file)] *)
Definition load_exclude_patterns (exclude_file : exclude_file)
  : outcome (list string) :=
  let patterns := [] in
  match exclude_file with
  | Missing => Returned patterns
  | Unreadable e => Raised e
  | Text content =>
      Returned
        (fold_left
           (fun patterns line =>
              let line := strip line in
              if negb (String.eqb line EmptyString)
                 && negb (startswith line "#")
              then patterns ++ [line]
              else patterns)
           (file_lines content) patterns)
  end.

Section WithMatcher.
Context `{GlobMatcher}.

(** The loop of [should_exclude] over the patterns. *)
Fixpoint should_exclude_loop (path_parts : list string) (path : string)
    (exclude_patterns : list string) : bool :=
  match exclude_patterns with
  | [] => false
  | pattern :: rest =>
      if existsb (fun part => fnmatch part pattern) path_parts then true
      else if fnmatch (basename path) pattern then true
      else should_exclude_loop path_parts path rest
  end.

(** [should_exclude(path, exclude_patterns)] *)
Definition should_exclude (path : string) (exclude_patterns : list string)
  : bool :=
  let path_parts := parts path in
  should_exclude_loop path_parts path exclude_patterns.

Definition text_extensions : list string :=
  [".py"; ".js"; ".ts"; ".tsx"; ".jsx"; ".java"; ".go"; ".cs"; ".cpp";
   ".c"; ".h"; ".md"; ".txt"; ".html"; ".css"; ".json"; ".yaml"; ".yml";
   ".sh"; ".rs"; ".rb"; ".php"; ".scala"; ".kt"].

(** [any(file.endswith(ext) for ext in text_extensions)] *)
Definition is_text_file (file : string) : bool :=
  existsb (fun ext => endswith file ext) text_extensions.

(** [re.findall(r"\b[a-zA-Z]{2,}\b", content.lower())] *)
Definition file_words (content : string) : list string :=
  Re.findall (lower content).

(** The variables of [collect_words], and what it wrote to [stderr]. *)
Record words_state := WordsState {
  words : list string;
  files_processed : nat;
  files_skipped : nat;
  stderr : list string
}.

Definition words_init : words_state := WordsState [] 0 0 [].

Definition warning (filepath e : string) : string :=
  "Warning: Could not read " +:+ filepath +:+ ": " +:+ e.

Section WithFiles.
(** [open(filepath, "r", encoding="utf-8", errors="ignore").read()] *)
Variable read_text : string -> outcome string.

(** The [try] block for one file. *)
Definition read_words (filepath : string) (st : words_state)
  : outcome words_state :=
  match read_text filepath with
  | Raised e => Raised e
  | Returned content =>
      let file_words := file_words content in
      Returned (WordsState (words st ++ file_words)
                           (files_processed st + 1)
                           (files_skipped st)
                           (stderr st))
  end.

(** One turn of [for file in files]. *)
Definition words_file (exclude_patterns : list string) (root : string)
    (st : words_state) (file : string) : words_state :=
  let filepath := join root file in
  if should_exclude filepath exclude_patterns then
    WordsState (words st) (files_processed st) (files_skipped st + 1)
               (stderr st)
  else if negb (is_text_file file) then st
  else
    match read_words filepath st with
    | Returned st' => st'
    | Raised e =>
        WordsState (words st) (files_processed st) (files_skipped st)
                   (stderr st ++ [warning filepath e])
    end.

(** One turn of [for root, dirs, files in os.walk(base_dir)]. *)
Definition words_body (exclude_patterns : list string)
  : loop_body words_state :=
  fun root dirs files st =>
    let dirs :=
      List.filter
        (fun d => negb (should_exclude (join root d) exclude_patterns))
        dirs in
    (dirs, fold_left (words_file exclude_patterns root) files st).

(** The state [collect_words] ends in; the two counters are printed. *)
Definition collect_words_run (t : tree) (base_dir : string)
    (exclude_patterns : list string) : words_state :=
  os_walk (words_body exclude_patterns) base_dir t words_init.

(** [collect_words(base_dir, exclude_patterns)], with [t] the
    directory tree at [base_dir]. *)
Definition collect_words (t : tree) (base_dir : string)
    (exclude_patterns : list string) : list string :=
  words (collect_words_run t base_dir exclude_patterns).

End WithFiles.
End WithMatcher.

(** What the NLTK calls of [filter_stopwords] do. *)
Inductive nltk :=
| ImportFails
| Corpus (english : list string)
| LookupFails (after_download : option (list string)).

(** The [try] block that sets [english_stopwords]: the corpus, the corpus
    after one download, or the empty set when anything raised. *)
Definition english_stopwords (lib : nltk) : gset string :=
  match lib with
  | Corpus english => list_to_set english
  | LookupFails (Some english) => list_to_set english
  | LookupFails None => ∅
  | ImportFails => ∅
  end.

Definition programming_keywords : gset string :=
  list_to_set
    ["var"; "let"; "const"; "def"; "class"; "return"; "import"; "function";
     "if"; "else"; "elif"; "then"; "end"; "do"; "while"; "for"; "try";
     "catch"; "finally"; "throw"; "new"; "this"; "self"; "super"; "true";
     "false"; "none"; "null"; "undefined"; "void"; "public"; "private";
     "protected"; "static"; "final"; "abstract"; "interface"; "extends";
     "implements"; "package"; "namespace"; "using"; "include"; "define";
     "ifdef"; "endif"; "extern"; "typeof"; "instanceof"; "async"; "await";
     "yield"; "lambda"; "del"; "pass"; "break"; "continue"; "raise";
     "except"; "assert"; "switch"; "case"; "default"; "goto"; "struct";
     "enum"; "union"; "typedef"; "sizeof"; "const"; "volatile"; "inline";
     "virtual"].

(** [filter_stopwords(word_counts)] *)
Definition filter_stopwords {A : Type} (lib : nltk)
    (word_counts : gmap string A) : gmap string A :=
  let english_stopwords := english_stopwords lib in
  let programming_keywords := programming_keywords in
  let all_stopwords := english_stopwords (* ∪ programming_keywords *) in
  filter (fun item : string * A => item.1 ∉ all_stopwords) word_counts.

(** [Counter(words)] *)
Definition Counter (words : list string) : gmap string nat :=
  fold_left
    (fun counts word => <[word := default 0 (counts !! word) + 1]> counts)
    words ∅.

End Generator.

(* ===================================================================== *)
(** ** [wordcloud_languages.py] *)
(* ===================================================================== *)

Module Languages.
Import PyStr PosixPath OsWalk.

Definition LANGUAGE_MAP : gmap string string :=
  list_to_map
    [(".py", "Python"); (".js", "JavaScript"); (".ts", "TypeScript");
     (".tsx", "TypeScript"); (".jsx", "JavaScript"); (".java", "Java");
     (".go", "Go"); (".rs", "Rust"); (".c", "C"); (".cpp", "C++");
     (".cc", "C++"); (".cxx", "C++"); (".h", "C"); (".hpp", "C++");
     (".cs", "C#"); (".rb", "Ruby"); (".php", "PHP"); (".swift", "Swift");
     (".kt", "Kotlin"); (".scala", "Scala"); (".r", "R");
     (".m", "Objective-C"); (".sh", "Shell"); (".bash", "Bash");
     (".pl", "Perl"); (".lua", "Lua"); (".vim", "VimScript");
     (".el", "Emacs-Lisp"); (".clj", "Clojure"); (".ex", "Elixir");
     (".erl", "Erlang"); (".hs", "Haskell"); (".ml", "OCaml");
     (".sql", "SQL"); (".dockerfile", "Docker"); (".tf", "Terraform");
     (".yaml", "YAML"); (".yml", "YAML"); (".json", "JSON");
     (".xml", "XML"); (".html", "HTML"); (".css", "CSS");
     (".scss", "SCSS"); (".sass", "Sass"); (".less", "Less");
     (".md", "Markdown"); (".rst", "reStructuredText"); (".tex", "LaTeX")].

(** [load_exclude_patterns(exclude_file)] *)
Definition load_exclude_patterns (exclude_file : exclude_file)
  : outcome (list string) :=
  let patterns := [] in
  match exclude_file with
  | Missing => Returned patterns
  | Unreadable e => Raised e
  | Text content =>
      Returned
        (fold_left
           (fun patterns line =>
              let line := strip line in
              if negb (String.eqb line EmptyString)
                 && negb (startswith line "#")
              then patterns ++ [line]
              else patterns)
           (file_lines content) patterns)
  end.

Section WithMatcher.
Context `{GlobMatcher}.

Fixpoint should_exclude_loop (path_parts : list string) (path : string)
    (exclude_patterns : list string) : bool :=
  match exclude_patterns with
  | [] => false
  | pattern :: rest =>
      if existsb (fun part => fnmatch part pattern) path_parts then true
      else if fnmatch (basename path) pattern then true
      else should_exclude_loop path_parts path rest
  end.

(** [should_exclude(path, exclude_patterns)] *)
Definition should_exclude (path : string) (exclude_patterns : list string)
  : bool :=
  let path_parts := parts path in
  should_exclude_loop path_parts path exclude_patterns.

(** The variables of [collect_languages]. *)
Record lang_state := LangState {
  language_counts : gmap string nat;
  files_by_language : gmap string (list string);
  files_processed : nat;
  files_skipped : nat
}.

Definition lang_init : lang_state := LangState ∅ ∅ 0 0.

(** One turn of [for file in files]. *)
Definition lang_file (exclude_patterns : list string) (root : string)
    (st : lang_state) (file : string) : lang_state :=
  let filepath := join root file in
  if should_exclude filepath exclude_patterns then
    LangState (language_counts st) (files_by_language st)
              (files_processed st) (files_skipped st + 1)
  else
    let ext := lower (snd (splitext file)) in
    match LANGUAGE_MAP !! ext with
    | Some language =>
        let language_counts :=
          <[language := default 0 (language_counts st !! language) + 1]>
            (language_counts st) in
        let files_by_language :=
          match files_by_language st !! language with
          | None => <[language := []]> (files_by_language st)
          | Some _ => files_by_language st
          end in
        let files_by_language :=
          <[language :=
              default [] (files_by_language !! language) ++ [filepath]]>
            files_by_language in
        LangState language_counts files_by_language
                  (files_processed st + 1) (files_skipped st)
    | None => st
    end.

(** One turn of [for root, dirs, files in os.walk(base_dir)]. *)
Definition lang_body (exclude_patterns : list string)
  : loop_body lang_state :=
  fun root dirs files st =>
    let dirs :=
      List.filter
        (fun d => negb (should_exclude (join root d) exclude_patterns))
        dirs in
    (dirs, fold_left (lang_file exclude_patterns root) files st).

(** The state [collect_languages] ends in; the two counters are
    printed. *)
Definition collect_languages_run (t : tree) (base_dir : string)
    (exclude_patterns : list string) : lang_state :=
  os_walk (lang_body exclude_patterns) base_dir t lang_init.

(** [collect_languages(base_dir, exclude_patterns)], with [t] the
    directory tree at [base_dir]. *)
Definition collect_languages (t : tree) (base_dir : string)
    (exclude_patterns : list string)
  : gmap string nat * gmap string (list string) :=
  let st := collect_languages_run t base_dir exclude_patterns in
  (language_counts st, files_by_language st).

End WithMatcher.

End Languages.

(* ===================================================================== *)
(** ** Notions of the specification *)
(* ===================================================================== *)

Module Spec.
Import PyStr PosixPath.

Definition emit (cur : string) : list string :=
  match cur with
  | EmptyString => []
  | _ => [cur]
  end.

(** The maximal runs of characters of the class [p], in order; [cur] is
    the run being read. *)
Fixpoint runs_from (p : ascii -> bool) (cur : string) (s : string)
  : list string :=
  match s with
  | EmptyString => emit cur
  | String c s' =>
      if p c then runs_from p (cur +:+ String c EmptyString) s'
      else emit cur ++ runs_from p EmptyString s'
  end.

Definition runs (p : ascii -> bool) (s : string) : list string :=
  runs_from p EmptyString s.

Fixpoint all_chars (p : ascii -> bool) (s : string) : bool :=
  match s with
  | EmptyString => true
  | String c s' => p c && all_chars p s'
  end.

(** Word extraction as the specification words it: the maximal runs of
    ASCII letters of the lowercased content that have two letters or
    more. *)
Definition alphabetic_runs (content : string) : list string :=
  List.filter (fun w => 2 <=? String.length w)
              (runs is_ascii_letter (lower content)).

(** Whole words: the maximal runs of word characters (letters, digits,
    underscore) of the lowercased content that are made of ASCII letters
    only and have two letters or more. *)
Definition whole_word (w : string) : bool :=
  all_chars is_ascii_letter w && (2 <=? String.length w).

Definition whole_words (content : string) : list string :=
  List.filter whole_word (runs is_word (lower content)).

(** The characters of [l] put in front of [s]. *)
Definition prepend (l : list ascii) (s : string) : string :=
  fold_right String s l.

Definition head_is (p : ascii -> bool) (s : string) : bool :=
  match s with
  | String c _ => p c
  | EmptyString => false
  end.

Fixpoint drop_while (p : ascii -> bool) (s : string) : string :=
  match s with
  | EmptyString => EmptyString
  | String c s' => if p c then drop_while p s' else s
  end.

Definition is_word_opt (prev : option ascii) : bool :=
  match prev with
  | Some c => is_word c
  | None => false
  end.

(** What a scan is still to find, from the character before the position
    and the text from it on: behind a word character the rest of that
    run is passed over. *)
Definition still_to_find (prev : option ascii) (rest : string)
  : list string :=
  List.filter whole_word
    (if is_word_opt prev then runs is_word (drop_while is_word rest)
     else runs is_word rest).

(** A line [load_exclude_patterns] keeps, once stripped. *)
Definition is_pattern_line (line : string) : bool :=
  negb (String.eqb line EmptyString) && negb (startswith line "#").

(** The pattern list as the specification words it: the stripped lines,
    in file order, without the empty ones and the comments. *)
Definition pattern_lines (content : string) : list string :=
  List.filter is_pattern_line (map strip (file_lines content)).

(** Some segment of the path matches some pattern. *)
Definition some_segment_matches `{GlobMatcher}
    (path : string) (exclude_patterns : list string) : bool :=
  existsb
    (fun pattern => existsb (fun part => fnmatch part pattern) (parts path))
    exclude_patterns.

(** The sub-directory [os.walk] enters for a name. *)
Fixpoint find_sub (dirname : string) (subdirs : list (string * tree))
  : option tree :=
  match subdirs with
  | [] => None
  | (name, sub) :: l' =>
      if String.eqb name dirname then Some sub else find_sub dirname l'
  end.

(** The shape both loop bodies have: [dirs] is cut down to the names that
    are not excluded, and [step] runs over [files]. *)
Definition pruned_body {St : Type} `{GlobMatcher}
    (exclude_patterns : list string) (step : string -> St -> string -> St)
  : OsWalk.loop_body St :=
  fun root dirs files st =>
    (List.filter
       (fun d =>
          negb (Generator.should_exclude (join root d) exclude_patterns))
       dirs,
     fold_left (step root) files st).

(** The files both loops visit, each with the [root] it is listed under,
    in the order of the visit: the walk driven by a body that prunes
    [dirs] the same way and only records. *)
Definition visited `{GlobMatcher} (exclude_patterns : list string)
    (base_dir : string) (t : tree) : list (string * string) :=
  OsWalk.os_walk
    (pruned_body exclude_patterns (fun root acc file => acc ++ [(root, file)]))
    base_dir t [].

(** The names [os.walk] still finds in [dirs] when it is resumed. *)
Definition kept `{GlobMatcher} (exclude_patterns : list string)
    (root : string) (subdirs : list (string * tree)) : list string :=
  List.filter
    (fun d =>
       negb (Generator.should_exclude (join root d) exclude_patterns))
    (map fst subdirs).

(** The tree without what lies below its excluded directories. *)
Fixpoint pruned `{GlobMatcher} (exclude_patterns : list string)
    (top : string) (t : tree) : tree :=
  match t with
  | Dir subdirs files =>
      Dir (map (fun nt : string * tree =>
                  let '(name, sub) := nt in
                  (name,
                   if Generator.should_exclude (join top name) exclude_patterns
                   then Dir [] []
                   else pruned exclude_patterns (join top name) sub))
               subdirs)
          files
  end.

(** The path of the directory reached from [top] through [ds]. *)
Definition joins (top : string) (ds : list string) : string :=
  fold_left join ds top.

(** The paths of the directories below [top] on the way through [ds]. *)
Fixpoint ancestors (top : string) (ds : list string) : list string :=
  match ds with
  | [] => []
  | d :: ds' => join top d :: ancestors (join top d) ds'
  end.

(** What [os.path.join] puts between a directory and a name. *)
Definition connector (a : string) : string :=
  if String.eqb a EmptyString || endswith a (String sep EmptyString)
  then EmptyString else String sep EmptyString.

(** The names [l], each behind a separator. *)
Definition tail_path (l : list string) : string :=
  fold_right (fun x acc => String sep (x +:+ acc)) EmptyString l.

(** Empty, or starting with a separator. *)
Definition sep_headed (r : string) : bool :=
  match r with
  | EmptyString => true
  | String c _ => Ascii.eqb c sep
  end.

(** A name a directory listing can hold. *)
Definition valid_name (n : string) : bool :=
  negb (String.eqb n EmptyString) && negb (contains sep n).

Fixpoint valid_tree (t : tree) : bool :=
  match t with
  | Dir subdirs files =>
      (fix all (l : list (string * tree)) : bool :=
         match l with
         | [] => true
         | (name, sub) :: l' => valid_name name && valid_tree sub && all l'
         end) subdirs
      && forallb valid_name files
  end.

(** [located t ds file]: the directory reached from the top of [t]
    through the names [ds] lists a file [file]. *)
Inductive located : tree -> list string -> string -> Prop :=
| located_here subdirs files file :
    In file files -> located (Dir subdirs files) [] file
| located_below subdirs files d sub ds file :
    In (d, sub) subdirs -> located sub ds file ->
    located (Dir subdirs files) (d :: ds) file.

(** The words one visited file adds to the result. *)
Definition contribution `{GlobMatcher} (read_text : string -> outcome string)
    (exclude_patterns : list string) (visit : string * string)
  : list string :=
  let filepath := join visit.1 visit.2 in
  if Generator.should_exclude filepath exclude_patterns then []
  else if negb (Generator.is_text_file visit.2) then []
  else match read_text filepath with
       | Returned content => Generator.file_words content
       | Raised _ => []
       end.

(** The warning one visited file adds to [stderr]. *)
Definition complaint `{GlobMatcher} (read_text : string -> outcome string)
    (exclude_patterns : list string) (visit : string * string)
  : list string :=
  let filepath := join visit.1 visit.2 in
  if Generator.should_exclude filepath exclude_patterns then []
  else if negb (Generator.is_text_file visit.2) then []
  else match read_text filepath with
       | Returned _ => []
       | Raised e => [Generator.warning filepath e]
       end.

(** The sum of all counts of a frequency table. *)
Definition total (counts : gmap string nat) : nat :=
  map_fold (fun _ n acc => n + acc) 0 counts.

(** The invariant of the language aggregation. *)
Definition lang_invariant (st : Languages.lang_state) : Prop :=
  Languages.files_processed st = total (Languages.language_counts st)
  /\ (forall L,
        Languages.language_counts st !! L
        = length <$> Languages.files_by_language st !! L)
  /\ dom (Languages.language_counts st)
     = dom (Languages.files_by_language st).

End Spec.

(* ===================================================================== *)
(** ** Directory listings *)
(* ===================================================================== *)

Module Listing.
Import PyStr PosixPath Spec.

(** A name [os.scandir] can give: a valid name other than the single
    dot. *)
Definition proper_name (n : string) : bool :=
  valid_name n && negb (String.eqb n ".").

(** Every directory on the way through [ds] has a proper name. *)
Definition proper_way (ds : list string) : bool := forallb proper_name ds.

(** No directory lists two sub-directories under one name. *)
Fixpoint unique_names (t : tree) : Prop :=
  match t with
  | Dir subdirs files =>
      NoDup (map fst subdirs)
      /\ (fix all (l : list (string * tree)) : Prop :=
            match l with
            | [] => True
            | (_, sub) :: l' => unique_names sub /\ all l'
            end) subdirs
  end.

(** No directory lists two files under one name. *)
Fixpoint unique_files (t : tree) : Prop :=
  match t with
  | Dir subdirs files =>
      NoDup files
      /\ (fix all (l : list (string * tree)) : Prop :=
            match l with
            | [] => True
            | (_, sub) :: l' => unique_files sub /\ all l'
            end) subdirs
  end.

(** The visited file is excluded: it is counted as skipped. *)
Definition skipped_visit `{GlobMatcher} (exclude_patterns : list string)
    (visit : string * string) : bool :=
  Generator.should_exclude (join visit.1 visit.2) exclude_patterns.

(** The visited file is a candidate of the word pipeline: not excluded,
    and a text file by its name. *)
Definition candidate `{GlobMatcher} (exclude_patterns : list string)
    (visit : string * string) : bool :=
  negb (skipped_visit exclude_patterns visit)
  && Generator.is_text_file visit.2.

(** A lowercase ASCII letter. *)
Definition is_lowercase_letter (c : ascii) : bool := in_range 97 122 c.

(** The visited file is counted under [language]: it is not excluded and
    its lowercased extension is mapped to that label. *)
Definition speaks `{GlobMatcher} (exclude_patterns : list string)
    (language : string) (visit : string * string) : bool :=
  negb (skipped_visit exclude_patterns visit)
  && bool_decide
       (Languages.LANGUAGE_MAP !! lower (splitext visit.2).2 = Some language).

(** The path of a visited file. *)
Definition visit_path (visit : string * string) : string :=
  join visit.1 visit.2.

(** The number of times [word] occurs in [words]. *)
Definition occurrences (word : string) (words : list string) : nat :=
  length (List.filter (String.eqb word) words).

End Listing.

(* ===================================================================== *)
(** ** The ranking printed by [main] *)
(* ===================================================================== *)

Module Report.

(** One step of a stable sort by descending count: [x], which comes
    before the items of [l] in the input, goes in front of the first item
    whose count is not greater than its own. *)
Fixpoint insert_desc (x : string * nat) (l : list (string * nat))
  : list (string * nat) :=
  match l with
  | [] => [x]
  | y :: l' => if x.2 <? y.2 then y :: insert_desc x l' else x :: l
  end.

(** [a] comes before [b] in a descending order of counts. *)
Definition at_least (a b : string * nat) : Prop := b.2 <= a.2.

(** [sorted(items, key=lambda x: x[1], reverse=True)]: the sort is stable,
    so items of equal count keep the order they come in. *)
Definition sorted_desc (items : list (string * nat)) : list (string * nat) :=
  fold_right insert_desc [] items.

(** [sorted(filtered_counts.items(), key=lambda x: x[1], reverse=True)[:50]]
    of [wordcloud_generator.main], with [items] the items of the table in
    the order the dictionary gives them. *)
Definition top_words (items : list (string * nat)) : list (string * nat) :=
  firstn 50 (sorted_desc items).

(** [sorted(language_counts.items(), key=lambda x: x[1], reverse=True)] of
    [wordcloud_languages.main]. *)
Definition ranked_languages (items : list (string * nat))
  : list (string * nat) :=
  sorted_desc items.

End Report.

(* ===================================================================== *)
(** ** Lines of a text file *)
(* ===================================================================== *)

Module Lines.
Import PyStr Spec.

Definition LF : ascii := "010"%char.
Definition CR : ascii := "013"%char.

(** The text as universal newlines hand it to the reader: a carriage
    return, with the line feed that may follow it, is one line feed. *)
Fixpoint universal_newlines (s : string) : string :=
  match s with
  | EmptyString => EmptyString
  | String c s' =>
      if Ascii.eqb c CR then
        match s' with
        | String c' s'' =>
            if Ascii.eqb c' LF then String LF (universal_newlines s'')
            else String LF (universal_newlines s')
        | EmptyString => String LF EmptyString
        end
      else String c (universal_newlines s')
  end.

(** The last character of [s] is in the class [p]. *)
Fixpoint last_is (p : ascii -> bool) (s : string) : bool :=
  match s with
  | EmptyString => false
  | String c s' =>
      match s' with
      | EmptyString => p c
      | String _ _ => last_is p s'
      end
  end.

(** No carriage return, and a line feed at the end only. *)
Fixpoint one_line (l : string) : bool :=
  match l with
  | EmptyString => true
  | String c l' =>
      negb (Ascii.eqb c CR)
      && (negb (Ascii.eqb c LF) || String.eqb l' EmptyString)
      && one_line l'
  end.

(** The lines cut a text at its line feeds: no line is empty, each is one
    line, and each but the last ends with its line feed. *)
Fixpoint cut_at_line_feeds (lines : list string) : bool :=
  match lines with
  | [] => true
  | l :: lines' =>
      negb (String.eqb l EmptyString) && one_line l
      && match lines' with
         | [] => true
         | _ :: _ => last_is (Ascii.eqb LF) l
         end
      && cut_at_line_feeds lines'
  end.

(** The lines put together again. *)
Definition concat_lines (lines : list string) : string :=
  fold_right String.append EmptyString lines.

(** [middle] is [s] without the whitespace around it. *)
Definition stripped_of (s middle : string) : Prop :=
  exists before after,
    s = before +:+ middle +:+ after
    /\ all_chars isspace before = true
    /\ all_chars isspace after = true
    /\ head_is isspace middle = false
    /\ last_is isspace middle = false.

(** A line that stays: not empty, and no comment. *)
Definition kept (line : string) : bool :=
  match line with
  | EmptyString => false
  | String c _ => negb (Ascii.eqb c "#")
  end.

(** An exclusion file with the three line ends, a blank line, comments,
    one of them indented, blanks and a tab around the patterns, and no
    line end after the last line. *)
Definition sample_text : string :=
  concat_lines
    ["node_modules"; String LF EmptyString;
     "  # tools"; String LF EmptyString;
     String LF EmptyString;
     " *.pyc  "; String CR (String LF EmptyString);
     "#x"; String CR EmptyString;
     "build/ "; String "009" (String LF EmptyString);
     "my file"; String LF EmptyString;
     "last"].

(** A small exclusion file, its lines and its stripped lines. *)
Definition small_text : string :=
  concat_lines [" *.pyc  "; String CR (String LF EmptyString); "#x"].

Definition small_lines : list string :=
  [" *.pyc  " +:+ String LF EmptyString; "#x"].

Definition small_stripped : list string := ["*.pyc"; "#x"].

End Lines.

(* ===================================================================== *)
(** ** Strings *)
(* ===================================================================== *)

Section StringFacts.

Lemma app_cons (c : ascii) (s t : string) :
  String c s +:+ t = String c (s +:+ t).
Proof. reflexivity. Qed.

Lemma app_empty_l (s : string) : EmptyString +:+ s = s.
Proof. reflexivity. Qed.

Lemma app_empty_r (s : string) : s +:+ EmptyString = s.
Proof. induction s as [|c s IH]; [reflexivity|]. rewrite app_cons, IH. reflexivity. Qed.

Lemma app_assoc_str (s t u : string) : (s +:+ t) +:+ u = s +:+ (t +:+ u).
Proof.
  induction s as [|c s IH]; [reflexivity|].
  rewrite !app_cons, IH. reflexivity.
Qed.

Lemma app_length_str (s t : string) :
  String.length (s +:+ t) = String.length s + String.length t.
Proof.
  induction s as [|c s IH]; [reflexivity|].
  rewrite app_cons. simpl. rewrite IH. reflexivity.
Qed.

Lemma app_inv_head_str (s t u : string) : s +:+ t = s +:+ u -> t = u.
Proof.
  induction s as [|c s IH]; [auto|].
  rewrite !app_cons. intros E. injection E as E. auto.
Qed.

End StringFacts.

(* ===================================================================== *)
(** ** The regular expression finds the whole words *)
(* ===================================================================== *)

Section FindallFacts.
Import PyStr Re Spec.

Lemma letter_is_word (c : ascii) :
  is_ascii_letter c = true -> is_word c = true.
Proof. unfold is_word. intros ->. reflexivity. Qed.

Lemma not_word_not_letter (c : ascii) :
  is_word c = false -> is_ascii_letter c = false.
Proof.
  intros Hw. destruct (is_ascii_letter c) eqn:E; [|reflexivity].
  apply letter_is_word in E. congruence.
Qed.

Lemma prepend_app (l1 l2 : list ascii) (s : string) :
  prepend (l1 ++ l2) s = prepend l1 (prepend l2 s).
Proof. unfold prepend. apply fold_right_app. Qed.

Lemma prepend_length (l : list ascii) (s : string) :
  String.length (prepend l s) = length l + String.length s.
Proof. induction l as [|c l IH]; simpl; [reflexivity|]. rewrite IH. reflexivity. Qed.

Lemma prepend_string (l : list ascii) (s : string) :
  prepend l s = string_of_list_ascii l +:+ s.
Proof. induction l as [|c l IH]; simpl; [reflexivity|]. rewrite IH. reflexivity. Qed.

(** Every text splits into its longest prefix in a class and a rest that
    does not start in the class. *)
Lemma split_prefix (p : ascii -> bool) (s : string) :
  exists l r, s = prepend l r /\ forallb p l = true /\ head_is p r = false.
Proof.
  induction s as [|c s (l & r & -> & Hl & Hr)].
  - exists [], EmptyString. auto.
  - destruct (p c) eqn:E.
    + exists (c :: l), r. simpl. rewrite E, Hl. auto.
    + exists [], (String c (prepend l r)). simpl. auto.
Qed.

Lemma split_prefix_list (p : ascii -> bool) (w : list ascii) :
  exists l w2, w = l ++ w2 /\ forallb p l = true
               /\ match w2 with [] => True | e :: _ => p e = false end.
Proof.
  induction w as [|c w (l & w2 & -> & Hl & Hw)].
  - exists [], []. auto.
  - destruct (p c) eqn:E.
    + exists (c :: l), w2. simpl. rewrite E, Hl. auto.
    + exists [], (c :: l ++ w2). auto.
Qed.

Lemma forallb_rev_eq {A : Type} (p : A -> bool) (l : list A) :
  forallb p (rev l) = forallb p l.
Proof.
  induction l as [|a l IH]; [reflexivity|].
  simpl. rewrite forallb_app, IH. simpl. rewrite andb_true_r. apply andb_comm.
Qed.

Lemma last_In {A : Type} (l : list A) (d : A) :
  l <> [] -> In (List.last l d) l.
Proof.
  induction l as [|a l IH]; [congruence|]. intros _.
  destruct l as [|b l]; [left; reflexivity|].
  right. apply IH. discriminate.
Qed.

Lemma take_letters_prepend (l : list ascii) (taken : list ascii) (r : string) :
  forallb is_ascii_letter l = true ->
  take_letters taken (prepend l r) = take_letters (rev l ++ taken) r.
Proof.
  revert taken. induction l as [|c l IH]; intros taken Hl; [reflexivity|].
  simpl in Hl. apply andb_true_iff in Hl as [Hc Hl].
  simpl. rewrite Hc, IH by exact Hl. rewrite <- app_assoc. reflexivity.
Qed.

Lemma take_letters_stop (taken : list ascii) (r : string) :
  head_is is_ascii_letter r = false -> take_letters taken r = (taken, r).
Proof. destruct r as [|c r]; simpl; [reflexivity|]. intros ->. reflexivity. Qed.

(** Inside a run of word characters no closing boundary is found, however
    many letters the repeat gives back. *)
Lemma backtrack_inside (taken : list ascii) (rest : string) :
  forallb is_word taken = true -> head_is is_word rest = true ->
  backtrack taken rest = None.
Proof.
  revert rest. induction taken as [|c taken IH]; intros rest Ht Hr; [reflexivity|].
  simpl in Ht. apply andb_true_iff in Ht as [Hc Ht].
  cbn [backtrack]. unfold at_boundary.
  destruct rest as [|d rest]; [discriminate|]. simpl in Hr.
  rewrite Hc, Hr, andb_false_r. apply IH; [exact Ht | exact Hc].
Qed.

Lemma runs_from_prepend (p : ascii -> bool) (l : list ascii) (cur r : string) :
  forallb p l = true ->
  runs_from p cur (prepend l r) = runs_from p (cur +:+ string_of_list_ascii l) r.
Proof.
  revert cur. induction l as [|c l IH]; intros cur Hl.
  - simpl. rewrite app_empty_r. reflexivity.
  - simpl in Hl. apply andb_true_iff in Hl as [Hc Hl].
    simpl. rewrite Hc, IH by exact Hl. rewrite app_assoc_str. reflexivity.
Qed.

Lemma runs_from_stop (p : ascii -> bool) (cur r : string) :
  head_is p r = false -> runs_from p cur r = emit cur ++ runs p r.
Proof.
  destruct r as [|c r]; simpl.
  - intros _. rewrite app_nil_r. reflexivity.
  - intros Hc. unfold runs. simpl. rewrite Hc. reflexivity.
Qed.

Lemma drop_while_prepend (p : ascii -> bool) (l : list ascii) (r : string) :
  forallb p l = true -> head_is p r = false -> drop_while p (prepend l r) = r.
Proof.
  induction l as [|c l IH]; intros Hl Hr.
  - destruct r as [|d r]; simpl in *; [reflexivity|]. rewrite Hr. reflexivity.
  - simpl in Hl. apply andb_true_iff in Hl as [Hc Hl]. simpl. rewrite Hc. auto.
Qed.

Lemma all_chars_string (p : ascii -> bool) (l : list ascii) :
  all_chars p (string_of_list_ascii l) = forallb p l.
Proof. induction l as [|c l IH]; simpl; [reflexivity|]. rewrite IH. reflexivity. Qed.

Lemma length_string_of_list (l : list ascii) :
  String.length (string_of_list_ascii l) = length l.
Proof. induction l as [|c l IH]; simpl; [reflexivity|]. rewrite IH. reflexivity. Qed.

Lemma scan_step (fuel : nat) (prev : option ascii) (rest : string) :
  scan (S fuel) prev rest =
    match match_at prev rest with
    | Some (word, last, rest') => word :: scan fuel (Some last) rest'
    | None =>
        match rest with
        | String c rest' => scan fuel (Some c) rest'
        | EmptyString => []
        end
    end.
Proof. reflexivity. Qed.

Lemma match_at_no_boundary (prev : option ascii) (rest : string) :
  at_boundary prev rest = false -> match_at prev rest = None.
Proof. unfold match_at. intros ->. reflexivity. Qed.

Lemma match_at_no_letter (prev : option ascii) (rest : string) :
  head_is is_ascii_letter rest = false -> match_at prev rest = None.
Proof.
  intros Hr. unfold match_at. destruct (at_boundary prev rest); [|reflexivity].
  rewrite take_letters_stop by exact Hr. reflexivity.
Qed.

Lemma match_at_run (prev : option ascii) (w : list ascii) (r : string) :
  is_word_opt prev = false -> w <> [] ->
  forallb is_word w = true -> head_is is_word r = false ->
  match_at prev (prepend w r) =
    if forallb is_ascii_letter w && (2 <=? length w)
    then Some (string_of_list_ascii w, List.last w "000"%char, r)
    else None.
Proof.
  intros Hp Hne Hw Hr.
  destruct (split_prefix_list is_ascii_letter w) as (l & w2 & -> & Hl & Hw2).
  unfold match_at.
  assert (Hb : at_boundary prev (prepend (l ++ w2) r) = true).
  { unfold at_boundary. fold (is_word_opt prev). rewrite Hp.
    destruct (l ++ w2) as [|d w'] eqn:E; [congruence|].
    simpl in Hw. apply andb_true_iff in Hw as [Hd _]. simpl. exact Hd. }
  rewrite Hb, prepend_app, take_letters_prepend by exact Hl.
  rewrite app_nil_r.
  destruct w2 as [|e w2].
  - rewrite app_nil_r in *. simpl prepend.
    rewrite take_letters_stop
      by (destruct r as [|d r]; [reflexivity|]; simpl in *;
          apply not_word_not_letter; exact Hr).
    rewrite Hl. simpl andb.
    destruct (rev l) as [|c t] eqn:E.
    { apply (f_equal (@rev ascii)) in E. rewrite rev_involutive in E. simpl in E. congruence. }
    assert (El : l = rev t ++ [c]).
    { apply (f_equal (@rev ascii)) in E. rewrite rev_involutive in E. exact E. }
    assert (Hc : is_word c = true).
    { rewrite El, forallb_app in Hw. apply andb_true_iff in Hw as [_ Hw].
      simpl in Hw. rewrite andb_true_r in Hw. exact Hw. }
    assert (Hlen : length (c :: t) = length l).
    { rewrite <- E. apply length_rev. }
    cbn [backtrack]. rewrite Hlen. unfold at_boundary at 1.
    rewrite Hc.
    replace (match r with String c0 _ => is_word c0 | EmptyString => false end)
      with (head_is is_word r) by reflexivity.
    rewrite Hr. simpl xorb. rewrite andb_true_r.
    destruct (2 <=? length l) eqn:E2.
    + unfold string_of_rev. rewrite <- E, rev_involutive.
      assert (List.last l "000"%char = c) as ->
        by (rewrite El; apply List.last_last).
      destruct l as [|a [|b l]]; [discriminate|discriminate|reflexivity].
    + destruct t as [|c' t].
      * destruct l as [|a [|b l]]; [reflexivity|reflexivity|discriminate].
      * simpl in Hlen. rewrite <- Hlen in E2. discriminate.
  - simpl in Hw2. rewrite forallb_app in Hw. apply andb_true_iff in Hw as [Hwl Hwe].
    simpl in Hwe. apply andb_true_iff in Hwe as [He _].
    rewrite take_letters_stop by (simpl; exact Hw2).
    rewrite backtrack_inside.
    + rewrite forallb_app. simpl. rewrite Hw2, andb_false_r. reflexivity.
    + rewrite forallb_rev_eq. exact Hwl.
    + simpl. exact He.
Qed.


(** The scan finds the whole words, whatever position it starts from. *)
Lemma scan_still_to_find (fuel : nat) :
  forall prev rest, String.length rest < fuel ->
    scan fuel prev rest = still_to_find prev rest.
Proof.
  induction fuel as [|fuel IH]; intros prev rest Hf; [lia|].
  rewrite scan_step. unfold still_to_find.
  destruct (is_word_opt prev) eqn:Hp.
  - (* behind a word character *)
    destruct rest as [|d r]; [rewrite match_at_no_letter by reflexivity; reflexivity|].
    simpl in Hf. destruct (is_word d) eqn:Hd.
    + rewrite match_at_no_boundary
        by (unfold at_boundary; fold (is_word_opt prev); rewrite Hp, Hd; reflexivity).
      rewrite IH by lia. unfold still_to_find. simpl. rewrite Hd. reflexivity.
    + rewrite match_at_no_letter by (simpl; apply not_word_not_letter; exact Hd).
      rewrite IH by lia. unfold still_to_find. simpl. rewrite Hd.
      unfold runs. simpl. rewrite Hd. reflexivity.
  - (* at the start of the text or behind another character *)
    destruct rest as [|d r]; [rewrite match_at_no_letter by reflexivity; reflexivity|].
    simpl in Hf. destruct (is_word d) eqn:Hd.
    + destruct (split_prefix is_word r) as (w & r' & -> & Hw & Hr).
      change (String d (prepend w r')) with (prepend (d :: w) r').
      rewrite prepend_length in Hf.
      rewrite match_at_run; [|exact Hp|discriminate|simpl; rewrite Hd; exact Hw|exact Hr].
      unfold runs. rewrite runs_from_prepend by (simpl; rewrite Hd; exact Hw).
      rewrite runs_from_stop by exact Hr.
      rewrite app_empty_l. simpl emit. simpl app.
      cbn [List.filter]. unfold whole_word at 1.
      change (String d (string_of_list_ascii w))
        with (string_of_list_ascii (d :: w)).
      rewrite all_chars_string, length_string_of_list.
      destruct (forallb is_ascii_letter (d :: w) && (2 <=? length (d :: w))) eqn:E.
      * rewrite IH by lia. unfold still_to_find.
        assert (Hl : is_word (List.last (d :: w) "000"%char) = true).
        { assert (Hall : forallb is_word (d :: w) = true) by (simpl; rewrite Hd; exact Hw).
          rewrite forallb_forall in Hall. apply Hall.
          apply last_In. discriminate. }
        cbn [is_word_opt]. rewrite Hl.
        replace (drop_while is_word r') with r'
          by (destruct r' as [|e r']; simpl in *; [reflexivity|rewrite Hr; reflexivity]).
        reflexivity.
      * rewrite IH by (rewrite prepend_length; lia). unfold still_to_find.
        cbn [is_word_opt]. rewrite Hd.
        rewrite drop_while_prepend by assumption. reflexivity.
    + rewrite match_at_no_boundary
        by (unfold at_boundary; fold (is_word_opt prev); rewrite Hp; simpl; rewrite Hd; reflexivity).
      rewrite IH by lia. unfold still_to_find. cbn [is_word_opt]. rewrite Hd.
      unfold runs. simpl. rewrite Hd. reflexivity.
Qed.

Lemma findall_whole_words (s : string) :
  findall s = List.filter whole_word (runs is_word s).
Proof. unfold findall. rewrite scan_still_to_find by lia. reflexivity. Qed.

End FindallFacts.

(* ===================================================================== *)
(** ** The walk *)
(* ===================================================================== *)

Section WalkFacts.
Import PyStr PosixPath OsWalk Spec.
Context `{GlobMatcher}.

Lemma tree_ind' (P : tree -> Prop) :
  (forall subdirs files,
      Forall (fun nt => P nt.2) subdirs -> P (Dir subdirs files)) ->
  forall t, P t.
Proof.
  intros step. fix IH 1. intros [subdirs files]. apply step.
  refine ((fix all (l : list (string * tree)) : Forall (fun nt => P nt.2) l :=
             match l with
             | [] => List.Forall_nil _
             | nt :: l' => List.Forall_cons _ nt l' (IH nt.2) (all l')
             end) subdirs).
Qed.

Lemma find_sub_Forall (Q : string * tree -> Prop)
    (subdirs : list (string * tree)) (d : string) (sub : tree) :
  Forall Q subdirs -> find_sub d subdirs = Some sub -> Q (d, sub).
Proof.
  induction 1 as [|[n t] l Hn _ IH]; simpl; [discriminate|].
  destruct (String.eqb n d) eqn:E; [|exact IH].
  intros [= <-]. apply String.eqb_eq in E as <-. exact Hn.
Qed.

Lemma find_sub_In (subdirs : list (string * tree)) (d : string) (sub : tree) :
  find_sub d subdirs = Some sub -> In (d, sub) subdirs.
Proof.
  induction subdirs as [|[n t] l IH]; simpl; [discriminate|].
  destruct (String.eqb n d) eqn:E; [|auto].
  intros [= <-]. apply String.eqb_eq in E as ->. left. reflexivity.
Qed.

Lemma fold_left_ext_in {A B : Type} (f g : A -> B -> A) (l : list B) (a : A) :
  (forall acc x, In x l -> f acc x = g acc x) ->
  fold_left f l a = fold_left g l a.
Proof.
  revert a. induction l as [|x l IH]; intros a Hfg; [reflexivity|].
  simpl. rewrite Hfg by (left; reflexivity).
  apply IH. intros acc y Hy. apply Hfg. right. exact Hy.
Qed.

(** [os.walk] one level unfolded. *)
Lemma os_walk_Dir {St : Type} (body : loop_body St) (top : string)
    (subdirs : list (string * tree)) (files : list string) (st : St) :
  os_walk body top (Dir subdirs files) st =
    fold_left
      (fun acc dirname =>
         match find_sub dirname subdirs with
         | Some sub => os_walk body (join top dirname) sub acc
         | None => acc
         end)
      (body top (map fst subdirs) files st).1
      (body top (map fst subdirs) files st).2.
Proof.
  cbn [os_walk]. destruct (body top (map fst subdirs) files st) as [dirs st1].
  cbn [fst snd]. apply fold_left_ext_in. intros acc d _.
  induction subdirs as [|[n sub] l IH]; [reflexivity|].
  cbn [find_sub]. destruct (String.eqb n d); [reflexivity | exact IH].
Qed.

Variable exclude_patterns : list string.

Lemma fold_left_record {A B : Type} (f : B -> list A) (l : list B) (acc : list A) :
  fold_left (fun acc x => acc ++ f x) l acc = acc ++ flat_map f l.
Proof.
  revert acc. induction l as [|x l IH]; intros acc; simpl.
  - rewrite app_nil_r. reflexivity.
  - rewrite IH, <- app_assoc. reflexivity.
Qed.

Lemma record_files (root : string) (files : list string) (acc : list (string * string)) :
  fold_left (fun acc file => acc ++ [(root, file)]) files acc
  = acc ++ map (pair root) files.
Proof.
  revert acc. induction files as [|f l IH]; intros acc; simpl.
  - rewrite app_nil_r. reflexivity.
  - rewrite IH, <- app_assoc. reflexivity.
Qed.

(** The recording walk only appends. *)
Lemma record_appends (t : tree) :
  forall top acc,
    os_walk (pruned_body exclude_patterns (fun root acc file => acc ++ [(root, file)]))
            top t acc
    = acc ++ visited exclude_patterns top t.
Proof.
  induction t as [subdirs files IH] using tree_ind'. intros top acc.
  unfold visited. rewrite !os_walk_Dir. cbn [pruned_body fst snd].
  rewrite !record_files. simpl app.
  fold (kept exclude_patterns top subdirs). generalize (kept exclude_patterns top subdirs) as dirs.
  generalize (map (pair top) files) as here. intros here dirs. revert acc here.
  induction dirs as [|d dirs IHd]; intros acc here; [reflexivity|].
  cbn [fold_left]. destruct (find_sub d subdirs) as [sub|] eqn:E.
  - pose proof (find_sub_Forall _ _ _ _ IH E) as Hsub. cbn [snd] in Hsub.
    rewrite !Hsub, <- app_assoc. apply IHd.
  - apply IHd.
Qed.

(** The visited files of a directory: its own, then those of each kept
    sub-directory. *)
Lemma visited_Dir (top : string) (subdirs : list (string * tree))
    (files : list string) :
  visited exclude_patterns top (Dir subdirs files) =
    map (pair top) files
    ++ flat_map
         (fun d =>
            match find_sub d subdirs with
            | Some sub => visited exclude_patterns (join top d) sub
            | None => []
            end)
         (kept exclude_patterns top subdirs).
Proof.
  unfold visited at 1. rewrite os_walk_Dir. cbn [pruned_body fst snd].
  rewrite record_files. simpl app. fold (kept exclude_patterns top subdirs).
  rewrite <- (fold_left_record
                (fun d => match find_sub d subdirs with
                          | Some sub => visited exclude_patterns (join top d) sub
                          | None => []
                          end)).
  apply fold_left_ext_in. intros acc d _.
  destruct (find_sub d subdirs); [apply record_appends | rewrite app_nil_r; reflexivity].
Qed.

(** Either loop is a fold of its per-file step over the visited files. *)
Lemma walk_is_fold {St : Type} (step : string -> St -> string -> St) (t : tree) :
  forall top st,
    os_walk (pruned_body exclude_patterns step) top t st
    = fold_left (fun st v => step v.1 st v.2) (visited exclude_patterns top t) st.
Proof.
  induction t as [subdirs files IH] using tree_ind'. intros top st.
  rewrite visited_Dir, os_walk_Dir. cbn [pruned_body fst snd].
  fold (kept exclude_patterns top subdirs). rewrite fold_left_app.
  replace (fold_left (fun st v => step v.1 st v.2) (map (pair top) files) st)
    with (fold_left (step top) files st).
  2:{ clear. revert st. induction files as [|f l IHl]; intros st; [reflexivity|]. apply IHl. }
  generalize (fold_left (step top) files st) as st1.
  induction (kept exclude_patterns top subdirs) as [|d dirs IHd]; intros st1; [reflexivity|].
  cbn [fold_left flat_map]. rewrite fold_left_app.
  destruct (find_sub d subdirs) as [sub|] eqn:E.
  - pose proof (find_sub_Forall _ _ _ _ IH E) as Hsub. cbn [snd] in Hsub.
    rewrite Hsub. apply IHd.
  - apply IHd.
Qed.

End WalkFacts.

(* ===================================================================== *)
(** ** Paths *)
(* ===================================================================== *)

Section PathFacts.
Import PyStr PosixPath Spec.

Lemma valid_name_nonempty (d : string) : valid_name d = true -> d <> EmptyString.
Proof. intros Hd ->. discriminate. Qed.

Lemma valid_name_no_sep (d : string) : valid_name d = true -> contains sep d = false.
Proof.
  unfold valid_name. intros Hd. apply andb_true_iff in Hd as [_ Hd].
  apply negb_true_iff in Hd. exact Hd.
Qed.

Lemma no_sep_not_startswith (d : string) :
  contains sep d = false -> startswith d (String sep EmptyString) = false.
Proof.
  destruct d as [|c d]; [reflexivity|]. cbn [startswith contains].
  intros Hc. apply orb_false_iff in Hc as [Hc _].
  rewrite Ascii.eqb_sym, Hc. reflexivity.
Qed.

Lemma endswith_sep_contains (s : string) :
  endswith s (String sep EmptyString) = true -> contains sep s = true.
Proof.
  induction s as [|c s IH]; [discriminate|].
  cbn [endswith contains]. intros Hs. apply orb_true_iff in Hs as [Hs|Hs].
  - apply String.eqb_eq in Hs. injection Hs as -> _. reflexivity.
  - rewrite IH by exact Hs. apply orb_true_r.
Qed.

Lemma endswith_app (a d p : string) :
  d <> EmptyString -> String.length p = 1 ->
  endswith (a +:+ d) p = endswith d p.
Proof.
  intros Hd Hp. induction a as [|c a IH]; [reflexivity|].
  rewrite app_cons. cbn [endswith]. rewrite IH.
  destruct (String.eqb (String c (a +:+ d)) p) eqn:E; [|reflexivity].
  apply String.eqb_eq in E. subst p. simpl in Hp.
  destruct (a +:+ d) eqn:E2; [|discriminate].
  apply (f_equal String.length) in E2. rewrite app_length_str in E2.
  destruct d; [congruence|]. simpl in E2. lia.
Qed.

(** Joining a listed name puts it behind the directory, with a separator
    unless the directory brings one. *)
Lemma join_valid (a d : string) :
  valid_name d = true -> join a d = a +:+ connector a +:+ d.
Proof.
  intros Hd. unfold join, connector.
  rewrite no_sep_not_startswith by (apply valid_name_no_sep; exact Hd).
  destruct (String.eqb a EmptyString || endswith a (String sep EmptyString));
    reflexivity.
Qed.

Lemma connector_after_name (x d : string) :
  valid_name d = true -> connector (x +:+ d) = String sep EmptyString.
Proof.
  intros Hd. unfold connector.
  rewrite endswith_app by (try reflexivity; apply valid_name_nonempty; exact Hd).
  destruct (endswith d (String sep EmptyString)) eqn:E.
  { apply endswith_sep_contains in E.
    rewrite (valid_name_no_sep d Hd) in E. discriminate. }
  destruct (String.eqb (x +:+ d) EmptyString) eqn:E2; [|reflexivity].
  apply String.eqb_eq in E2. apply (f_equal String.length) in E2.
  rewrite app_length_str in E2. simpl in E2.
  destruct d; [discriminate|]. simpl in E2. lia.
Qed.

Lemma joins_after_name (x d : string) (l : list string) :
  valid_name d = true -> forallb valid_name l = true ->
  joins (x +:+ d) l = (x +:+ d) +:+ tail_path l.
Proof.
  revert x d. induction l as [|e l IH]; intros x d Hd Hl.
  - simpl. rewrite app_empty_r. reflexivity.
  - simpl in Hl. apply andb_true_iff in Hl as [He Hl].
    cbn [joins fold_left]. rewrite join_valid by exact He.
    rewrite connector_after_name by exact Hd.
    fold (joins ((x +:+ d) +:+ String sep EmptyString +:+ e) l).
    rewrite <- app_assoc_str. rewrite IH by assumption.
    rewrite !app_assoc_str. reflexivity.
Qed.

(** The path of a directory below [top], in closed form. *)
Lemma joins_cons (top d : string) (l : list string) :
  valid_name d = true -> forallb valid_name l = true ->
  joins top (d :: l) = top +:+ connector top +:+ d +:+ tail_path l.
Proof.
  intros Hd Hl. cbn [joins fold_left]. rewrite join_valid by exact Hd.
  fold (joins (top +:+ connector top +:+ d) l).
  rewrite <- app_assoc_str, joins_after_name by assumption.
  rewrite !app_assoc_str. reflexivity.
Qed.

Lemma tail_path_headed (l : list string) : sep_headed (tail_path l) = true.
Proof. destruct l; reflexivity. Qed.

(** A name and what follows it are read off a path in one way only. *)
Lemma name_unique (d d' r r' : string) :
  contains sep d = false -> contains sep d' = false ->
  sep_headed r = true -> sep_headed r' = true ->
  d +:+ r = d' +:+ r' -> d = d' /\ r = r'.
Proof.
  revert d'. induction d as [|c d IH]; intros [|c' d'] Hd Hd' Hr Hr' E.
  - rewrite !app_empty_l in E. auto.
  - rewrite app_empty_l, app_cons in E. subst r.
    cbn [sep_headed] in Hr. cbn [contains] in Hd'.
    rewrite Hr in Hd'. discriminate.
  - rewrite app_empty_l, app_cons in E. subst r'.
    cbn [sep_headed] in Hr'. cbn [contains] in Hd.
    rewrite Hr' in Hd. discriminate.
  - rewrite !app_cons in E. injection E as -> E.
    cbn [contains] in Hd, Hd'.
    apply orb_false_iff in Hd as [_ Hd]. apply orb_false_iff in Hd' as [_ Hd'].
    destruct (IH d' Hd Hd' Hr Hr' E) as [-> ->]. auto.
Qed.

Lemma tail_path_inj (l l' : list string) :
  forallb valid_name l = true -> forallb valid_name l' = true ->
  tail_path l = tail_path l' -> l = l'.
Proof.
  revert l'. induction l as [|d l IH]; intros [|d' l'] Hl Hl' E;
    [reflexivity|discriminate|discriminate|].
  simpl in Hl, Hl'.
  apply andb_true_iff in Hl as [Hd Hl]. apply andb_true_iff in Hl' as [Hd' Hl'].
  simpl in E. injection E as E.
  apply name_unique in E as [-> E];
    auto using valid_name_no_sep, tail_path_headed.
  f_equal. apply IH; assumption.
Qed.

(** Two ways down from one directory that end at the same path are the
    same way. *)
Lemma joins_inj (top : string) (ds ds' : list string) :
  forallb valid_name ds = true -> forallb valid_name ds' = true ->
  joins top ds = joins top ds' -> ds = ds'.
Proof.
  assert (Hlen : forall d l, valid_name d = true -> forallb valid_name l = true ->
                             joins top (d :: l) <> top).
  { intros d l Hd Hl E. rewrite joins_cons in E by assumption.
    apply (f_equal String.length) in E. rewrite !app_length_str in E.
    destruct d; [discriminate|]. simpl in E. lia. }
  destruct ds as [|d l], ds' as [|d' l']; intros Hl Hl' E.
  - reflexivity.
  - simpl in Hl'. apply andb_true_iff in Hl' as [Hd' Hl'].
    symmetry in E. apply Hlen in E; [contradiction|assumption|assumption].
  - simpl in Hl. apply andb_true_iff in Hl as [Hd Hl].
    apply Hlen in E; [contradiction|assumption|assumption].
  - simpl in Hl, Hl'.
    apply andb_true_iff in Hl as [Hd Hl]. apply andb_true_iff in Hl' as [Hd' Hl'].
    rewrite !joins_cons in E by assumption.
    apply app_inv_head_str, app_inv_head_str in E.
    apply name_unique in E as [-> E];
      auto using valid_name_no_sep, tail_path_headed.
    f_equal. apply tail_path_inj; assumption.
Qed.

Lemma split_nonempty (s : string) : split sep s <> [].
Proof.
  destruct s as [|c s]; [discriminate|]. cbn [split].
  destruct (Ascii.eqb c sep); [discriminate|].
  destruct (split sep s); discriminate.
Qed.

Lemma split_no_sep (s : string) :
  contains sep s = false -> split sep s = [s].
Proof.
  induction s as [|c s IH]; [reflexivity|]. cbn [contains split].
  intros Hc. apply orb_false_iff in Hc as [Hc Hs].
  rewrite Hc, IH by exact Hs. reflexivity.
Qed.

Lemma split_with_sep (s : string) :
  contains sep s = true -> exists h x t, split sep s = h :: x :: t.
Proof.
  induction s as [|c s IH]; [discriminate|]. cbn [contains split].
  destruct (Ascii.eqb c sep).
  - intros _. destruct (split sep s) as [|x t] eqn:E.
    + apply split_nonempty in E. contradiction.
    + eauto.
  - intros Hs. destruct (IH Hs) as (h & x & t & ->). eauto.
Qed.

(** The base name is the last of the pieces between separators. *)
Lemma basename_last (s : string) :
  List.last (split sep s) EmptyString = basename s.
Proof.
  induction s as [|c s IH]; [reflexivity|]. cbn [basename contains split].
  destruct (Ascii.eqb c sep); cbn [orb].
  - destruct (split sep s) as [|x t] eqn:E.
    + apply split_nonempty in E. contradiction.
    + exact IH.
  - destruct (contains sep s) eqn:Hs.
    + destruct (split_with_sep s Hs) as (h & x & t & E).
      rewrite E in *. exact IH.
    + rewrite split_no_sep by exact Hs. reflexivity.
Qed.

Lemma basename_splitroot (p : string) :
  basename (splitroot p).2 = basename p.
Proof.
  destruct p as [|a p1]; [reflexivity|]. cbn [splitroot].
  destruct (Ascii.eqb a sep) eqn:Ea; [|reflexivity].
  assert (E1 : basename (String a p1) = basename p1)
    by (cbn [basename contains]; rewrite Ea; reflexivity).
  destruct p1 as [|b p2]; [exact (eq_sym E1)|].
  destruct (Ascii.eqb b sep) eqn:Eb; [|exact (eq_sym E1)].
  assert (E2 : basename (String b p2) = basename p2)
    by (cbn [basename contains]; rewrite Eb; reflexivity).
  destruct p2 as [|c p3]; [cbn [snd]; congruence|].
  destruct (Ascii.eqb c sep); cbn [snd]; congruence.
Qed.

(** A base name that is neither empty nor a single dot is one of the
    parts of the path. *)
Lemma basename_in_parts (p : string) :
  basename p <> EmptyString -> basename p <> "." ->
  In (basename p) (parts p).
Proof.
  intros Hne Hdot. unfold parts.
  pose proof (basename_splitroot p) as Hb.
  destruct (splitroot p) as [root rel]. cbn [snd] in Hb.
  apply in_or_app. right. apply filter_In. split.
  - rewrite <- Hb, <- basename_last. apply last_In, split_nonempty.
  - unfold kept_component.
    destruct (String.eqb_spec (basename p) EmptyString); [contradiction|].
    destruct (String.eqb_spec (basename p) "."); [contradiction|].
    reflexivity.
Qed.

End PathFacts.

(* ===================================================================== *)
(** ** The exclusion predicate *)
(* ===================================================================== *)

Section ExcludeFacts.
Import PyStr PosixPath Spec.
Context `{GlobMatcher}.

(** The two modules carry the same predicate. *)
Lemma should_exclude_same (path : string) (exclude_patterns : list string) :
  Languages.should_exclude path exclude_patterns
  = Generator.should_exclude path exclude_patterns.
Proof. reflexivity. Qed.

Lemma should_exclude_loop_segments (ps : list string) (path : string)
    (exclude_patterns : list string) :
  In (basename path) ps ->
  Generator.should_exclude_loop ps path exclude_patterns
  = existsb (fun pattern => existsb (fun part => fnmatch part pattern) ps)
            exclude_patterns.
Proof.
  intros Hin. induction exclude_patterns as [|pattern rest IH]; [reflexivity|].
  cbn [Generator.should_exclude_loop existsb].
  destruct (existsb (fun part => fnmatch part pattern) ps) eqn:E; [reflexivity|].
  destruct (fnmatch (basename path) pattern) eqn:Eb; [|exact IH].
  exfalso. assert (existsb (fun part => fnmatch part pattern) ps = true).
  { apply existsb_exists. exists (basename path). auto. }
  congruence.
Qed.

Lemma should_exclude_nil (path : string) :
  Generator.should_exclude path [] = false.
Proof. reflexivity. Qed.

End ExcludeFacts.


(* ===================================================================== *)
(** ** What the walk reaches *)
(* ===================================================================== *)

Section ReachFacts.
Import PyStr PosixPath OsWalk Spec.
Context `{GlobMatcher}.
Variable exclude_patterns : list string.

(** Every visited file is listed by a directory of the tree, and no
    directory on the way down to it is excluded. *)
Lemma visited_reached (t : tree) :
  forall top root file,
    In (root, file) (visited exclude_patterns top t) ->
    exists ds,
      root = joins top ds /\ located t ds file
      /\ existsb (fun a => Generator.should_exclude a exclude_patterns)
                 (ancestors top ds) = false.
Proof.
  induction t as [subdirs files IH] using tree_ind'. intros top root file Hin.
  rewrite visited_Dir in Hin. apply in_app_or in Hin as [Hin|Hin].
  - apply in_map_iff in Hin as (f & [= <- <-] & Hf).
    exists []. repeat split. constructor. exact Hf.
  - apply in_flat_map in Hin as (d & Hd & Hin).
    destruct (find_sub d subdirs) as [sub|] eqn:E; [|contradiction].
    pose proof (find_sub_Forall _ _ _ _ IH E) as Hsub. cbn [snd] in Hsub.
    destruct (Hsub _ _ _ Hin) as (ds & -> & Hloc & Hex).
    exists (d :: ds). repeat split.
    + econstructor; [apply find_sub_In; exact E | exact Hloc].
    + cbn [ancestors existsb]. rewrite Hex, orb_false_r.
      apply filter_In in Hd as [_ Hd]. apply negb_true_iff in Hd. exact Hd.
Qed.

Lemma valid_subdir (subdirs : list (string * tree)) (files : list string)
    (d : string) (sub : tree) :
  valid_tree (Dir subdirs files) = true -> In (d, sub) subdirs ->
  valid_name d = true /\ valid_tree sub = true.
Proof.
  cbn [valid_tree]. intros Hv. apply andb_true_iff in Hv as [Hv _].
  induction subdirs as [|[n s] l IH]; intros Hin; [contradiction|].
  apply andb_true_iff in Hv as [Hv Hl]. apply andb_true_iff in Hv as [Hn Hs].
  destruct Hin as [[= -> ->]|Hin]; [auto|]. apply IH; assumption.
Qed.

Lemma located_valid (t : tree) (ds : list string) (file : string) :
  located t ds file -> valid_tree t = true -> forallb valid_name ds = true.
Proof.
  induction 1 as [|subdirs files d sub ds file Hin _ IH]; intros Hv; [reflexivity|].
  destruct (valid_subdir _ _ _ _ Hv Hin) as [Hd Hs].
  cbn [forallb]. rewrite Hd, IH by exact Hs. reflexivity.
Qed.

(** A file below an excluded directory is not visited. *)
Lemma below_excluded_not_visited (base_dir : string) (t : tree)
    (ds : list string) (file : string) :
  valid_tree t = true -> located t ds file ->
  existsb (fun a => Generator.should_exclude a exclude_patterns)
          (ancestors base_dir ds) = true ->
  ~ In (joins base_dir ds, file) (visited exclude_patterns base_dir t).
Proof.
  intros Hv Hloc Hex Hin.
  apply visited_reached in Hin as (ds' & E & Hloc' & Hex').
  apply joins_inj in E; eauto using located_valid.
  subst ds'. congruence.
Qed.

Lemma find_sub_map (g : string -> tree -> tree) (d : string)
    (subdirs : list (string * tree)) :
  find_sub d (map (fun nt : string * tree => let '(name, sub) := nt in (name, g name sub))
                  subdirs)
  = g d <$> find_sub d subdirs.
Proof.
  induction subdirs as [|[n sub] l IH]; [reflexivity|].
  cbn [map find_sub]. destruct (String.eqb n d) eqn:E; [|exact IH].
  apply String.eqb_eq in E as ->. reflexivity.
Qed.

Lemma kept_map (g : string -> tree -> tree) (top : string)
    (subdirs : list (string * tree)) :
  kept exclude_patterns top
       (map (fun nt : string * tree => let '(name, sub) := nt in (name, g name sub))
            subdirs)
  = kept exclude_patterns top subdirs.
Proof.
  unfold kept. f_equal. rewrite map_map. apply map_ext. intros [n sub]. reflexivity.
Qed.

Lemma flat_map_ext_in {A B : Type} (f g : A -> list B) (l : list A) :
  (forall a, In a l -> f a = g a) -> flat_map f l = flat_map g l.
Proof.
  induction l as [|a l IH]; intros Hfg; [reflexivity|].
  cbn [flat_map]. rewrite Hfg by (left; reflexivity).
  rewrite IH; [reflexivity|]. intros b Hb. apply Hfg. right. exact Hb.
Qed.

(** What lies below an excluded directory has no part in the visit. *)
Lemma visited_pruned (t : tree) :
  forall top,
    visited exclude_patterns top (pruned exclude_patterns top t)
    = visited exclude_patterns top t.
Proof.
  induction t as [subdirs files IH] using tree_ind'. intros top.
  cbn [pruned]. rewrite !visited_Dir.
  rewrite (kept_map (fun name sub =>
             if Generator.should_exclude (join top name) exclude_patterns
             then Dir [] []
             else pruned exclude_patterns (join top name) sub)).
  f_equal. apply flat_map_ext_in. intros d Hd.
  rewrite (find_sub_map (fun name sub =>
             if Generator.should_exclude (join top name) exclude_patterns
             then Dir [] []
             else pruned exclude_patterns (join top name) sub)).
  apply filter_In in Hd as [_ Hd]. apply negb_true_iff in Hd.
  destruct (find_sub d subdirs) as [sub|] eqn:E; [|reflexivity].
  cbn. rewrite Hd.
  pose proof (find_sub_Forall _ _ _ _ IH E) as Hsub. cbn [snd] in Hsub.
  apply Hsub.
Qed.
(** The two loops are folds over the visited files. *)
Lemma collect_words_run_fold (read_text : string -> outcome string)
    (t : tree) (base_dir : string) :
  Generator.collect_words_run read_text t base_dir exclude_patterns
  = fold_left
      (fun st v => Generator.words_file read_text exclude_patterns v.1 st v.2)
      (visited exclude_patterns base_dir t) Generator.words_init.
Proof.
  unfold Generator.collect_words_run.
  apply (walk_is_fold exclude_patterns
           (Generator.words_file read_text exclude_patterns)).
Qed.

Lemma collect_languages_run_fold (t : tree) (base_dir : string) :
  Languages.collect_languages_run t base_dir exclude_patterns
  = fold_left
      (fun st v => Languages.lang_file exclude_patterns v.1 st v.2)
      (visited exclude_patterns base_dir t) Languages.lang_init.
Proof.
  unfold Languages.collect_languages_run.
  apply (walk_is_fold exclude_patterns (Languages.lang_file exclude_patterns)).
Qed.

End ReachFacts.

(* ===================================================================== *)
(** ** The word loop *)
(* ===================================================================== *)

Section WordsFacts.
Import PyStr PosixPath OsWalk Spec.
Context `{GlobMatcher}.
Variable read_text : string -> outcome string.
Variable exclude_patterns : list string.

Lemma words_file_words (root : string) (st : Generator.words_state) (file : string) :
  Generator.words (Generator.words_file read_text exclude_patterns root st file)
  = Generator.words st ++ contribution read_text exclude_patterns (root, file).
Proof.
  unfold Generator.words_file, contribution, Generator.read_words. cbn [fst snd].
  destruct (Generator.should_exclude _ _); [cbn; rewrite app_nil_r; reflexivity|].
  destruct (Generator.is_text_file file); cbn [negb].
  2:{ rewrite app_nil_r; reflexivity. }
  destruct (read_text _); cbn; [reflexivity | rewrite app_nil_r; reflexivity].
Qed.

Lemma words_file_stderr (root : string) (st : Generator.words_state) (file : string) :
  Generator.stderr (Generator.words_file read_text exclude_patterns root st file)
  = Generator.stderr st ++ complaint read_text exclude_patterns (root, file).
Proof.
  unfold Generator.words_file, complaint, Generator.read_words. cbn [fst snd].
  destruct (Generator.should_exclude _ _); [cbn; rewrite app_nil_r; reflexivity|].
  destruct (Generator.is_text_file file); cbn [negb].
  2:{ rewrite app_nil_r; reflexivity. }
  destruct (read_text _); cbn; [rewrite app_nil_r; reflexivity | reflexivity].
Qed.

Lemma fold_words (l : list (string * string)) (st : Generator.words_state) :
  let st' := fold_left
               (fun st v => Generator.words_file read_text exclude_patterns v.1 st v.2)
               l st in
  Generator.words st'
  = Generator.words st ++ flat_map (contribution read_text exclude_patterns) l
  /\ Generator.stderr st'
     = Generator.stderr st ++ flat_map (complaint read_text exclude_patterns) l.
Proof.
  revert st. induction l as [|[root file] l IH]; intros st; cbn [fold_left flat_map].
  - rewrite !app_nil_r. auto.
  - destruct (IH (Generator.words_file read_text exclude_patterns root st file))
      as [Hw He].
    cbn zeta in Hw, He. cbn [fst snd].
    rewrite Hw, He, words_file_words, words_file_stderr, <- !app_assoc. auto.
Qed.

End WordsFacts.

(* ===================================================================== *)
(** ** The language loop *)
(* ===================================================================== *)

Section LanguageFacts.
Import PyStr PosixPath OsWalk Spec.
Context `{GlobMatcher}.
Variable exclude_patterns : list string.

(** Counting one more under a label adds one to the sum. *)
Lemma total_incr (counts : gmap string nat) (L : string) :
  total (<[L := default 0 (counts !! L) + 1]> counts) = total counts + 1.
Proof.
  unfold total. destruct (counts !! L) as [n|] eqn:E; cbn [default].
  - rewrite <- (insert_delete_eq counts L (n + 1)).
    rewrite map_fold_insert_L; [|intros; lia|apply lookup_delete_eq].
    rewrite (map_fold_delete_L _ _ L n counts); [|intros; lia|exact E].
    lia.
  - rewrite map_fold_insert_L; [|intros; lia|exact E].
    lia.
Qed.

(** Equal lookups up to length give equal key sets. *)
Lemma same_keys (counts : gmap string nat) (files : gmap string (list string)) :
  (forall L, counts !! L = length <$> files !! L) -> dom counts = dom files.
Proof.
  intros Hl. apply set_eq. intros L. rewrite !elem_of_dom, Hl.
  destruct (files !! L); cbn; split; intros [x Hx]; try discriminate; eauto.
Qed.

(** A file of a known language, step by step. *)
Lemma lang_file_known (root : string) (st : Languages.lang_state)
    (file language : string) :
  Generator.should_exclude (join root file) exclude_patterns = false ->
  Languages.LANGUAGE_MAP !! lower (splitext file).2 = Some language ->
  Languages.lang_file exclude_patterns root st file =
    Languages.LangState
      (<[language := default 0 (Languages.language_counts st !! language) + 1]>
         (Languages.language_counts st))
      (<[language :=
           default [] (Languages.files_by_language st !! language)
           ++ [join root file]]>
         (Languages.files_by_language st))
      (Languages.files_processed st + 1)
      (Languages.files_skipped st).
Proof.
  intros Hex Hl. unfold Languages.lang_file.
  rewrite should_exclude_same, Hex, Hl. f_equal.
  destruct (Languages.files_by_language st !! language) as [fs|] eqn:E.
  - rewrite E. reflexivity.
  - rewrite lookup_insert_eq, insert_insert_eq. reflexivity.
Qed.

Lemma lang_file_unknown (root : string) (st : Languages.lang_state) (file : string) :
  Generator.should_exclude (join root file) exclude_patterns = false ->
  Languages.LANGUAGE_MAP !! lower (splitext file).2 = None ->
  Languages.lang_file exclude_patterns root st file = st.
Proof.
  intros Hex Hl. unfold Languages.lang_file.
  rewrite should_exclude_same, Hex, Hl. reflexivity.
Qed.

Lemma lang_file_excluded (root : string) (st : Languages.lang_state) (file : string) :
  Generator.should_exclude (join root file) exclude_patterns = true ->
  Languages.lang_file exclude_patterns root st file =
    Languages.LangState (Languages.language_counts st)
                        (Languages.files_by_language st)
                        (Languages.files_processed st)
                        (Languages.files_skipped st + 1).
Proof.
  intros Hex. unfold Languages.lang_file.
  rewrite should_exclude_same, Hex. reflexivity.
Qed.

Lemma lang_invariant_init : lang_invariant Languages.lang_init.
Proof.
  split; [reflexivity|]. split; [|reflexivity].
  intros L. cbn. rewrite !lookup_empty. reflexivity.
Qed.

(** One turn of the file loop keeps the invariant. *)
Lemma lang_invariant_step (root : string) (st : Languages.lang_state) (file : string) :
  lang_invariant st ->
  lang_invariant (Languages.lang_file exclude_patterns root st file).
Proof.
  intros (Hsum & Hlen & Hdom).
  destruct (Generator.should_exclude (join root file) exclude_patterns) eqn:Hex.
  { rewrite lang_file_excluded by exact Hex. repeat split; assumption. }
  destruct (Languages.LANGUAGE_MAP !! lower (splitext file).2) as [L|] eqn:Hl.
  2:{ rewrite lang_file_unknown by assumption. repeat split; assumption. }
  rewrite (lang_file_known root st file L) by assumption.
  assert (Hlen' : forall L',
    <[L := default 0 (Languages.language_counts st !! L) + 1]>
      (Languages.language_counts st) !! L'
    = length <$>
        <[L := default [] (Languages.files_by_language st !! L) ++ [join root file]]>
          (Languages.files_by_language st) !! L').
  { intros L'. destruct (decide (L = L')) as [<-|Hne].
    - rewrite !lookup_insert_eq. cbn. rewrite length_app, Hlen. cbn.
      destruct (Languages.files_by_language st !! L); reflexivity.
    - rewrite !lookup_insert_ne by exact Hne. apply Hlen. }
  split; [|split].
  - cbn. rewrite total_incr, Hsum. reflexivity.
  - exact Hlen'.
  - apply same_keys. exact Hlen'.
Qed.

Lemma lang_invariant_fold (l : list (string * string)) (st : Languages.lang_state) :
  lang_invariant st ->
  lang_invariant
    (fold_left (fun st v => Languages.lang_file exclude_patterns v.1 st v.2) l st).
Proof.
  revert st. induction l as [|v l IH]; intros st Hst; [exact Hst|].
  cbn [fold_left]. apply IH, lang_invariant_step, Hst.
Qed.

End LanguageFacts.

(* ===================================================================== *)
(** ** The stopword filter and the pattern loader *)
(* ===================================================================== *)

Section FilterFacts.
Import PyStr Spec.

Lemma filter_stopwords_lookup {A : Type} (lib : Generator.nltk)
    (word_counts : gmap string A) (word : string) :
  Generator.filter_stopwords lib word_counts !! word
  = if decide (word ∈ Generator.english_stopwords lib) then None
    else word_counts !! word.
Proof.
  unfold Generator.filter_stopwords. rewrite map_lookup_filter.
  destruct (word_counts !! word) as [n|]; cbn.
  - destruct (decide (word ∈ Generator.english_stopwords lib)).
    + rewrite option_guard_False by (cbn; auto). reflexivity.
    + rewrite option_guard_True by (cbn; auto). reflexivity.
  - destruct (decide _); reflexivity.
Qed.

Lemma append_loop {A B : Type} (keep : B -> bool) (f : A -> B) (l : list A)
    (acc : list B) :
  fold_left (fun acc x => let y := f x in if keep y then acc ++ [y] else acc) l acc
  = acc ++ List.filter keep (map f l).
Proof.
  revert acc. induction l as [|x l IH]; intros acc; cbn [fold_left map List.filter].
  - rewrite app_nil_r. reflexivity.
  - rewrite IH. cbn zeta. destruct (keep (f x)); [|reflexivity].
    rewrite <- app_assoc. reflexivity.
Qed.

Lemma load_exclude_patterns_text (content : string) :
  Generator.load_exclude_patterns (Text content) = Returned (pattern_lines content).
Proof.
  unfold Generator.load_exclude_patterns, pattern_lines. f_equal.
  apply (append_loop is_pattern_line strip).
Qed.

Lemma load_exclude_patterns_same (f : exclude_file) :
  Languages.load_exclude_patterns f = Generator.load_exclude_patterns f.
Proof. reflexivity. Qed.

End FilterFacts.

(* ===================================================================== *)
(** ** Suffixes *)
(* ===================================================================== *)

Section SuffixFacts.
Import PyStr.

(** [endswith] is the suffix relation. *)
Lemma endswith_spec (s p : string) :
  endswith s p = true <-> exists a, s = a +:+ p.
Proof.
  split.
  - induction s as [|c s IH]; cbn [endswith]; intros Hs.
    + apply orb_true_iff in Hs as [Hs|Hs]; [|discriminate].
      apply String.eqb_eq in Hs as <-. exists EmptyString. reflexivity.
    + apply orb_true_iff in Hs as [Hs|Hs].
      * apply String.eqb_eq in Hs as <-. exists EmptyString. reflexivity.
      * destruct (IH Hs) as [a ->]. exists (String c a). reflexivity.
  - intros [a ->]. induction a as [|c a IH].
    + rewrite app_empty_l. destruct p; cbn [endswith];
        rewrite String.eqb_refl; reflexivity.
    + rewrite app_cons. cbn [endswith]. rewrite IH. apply orb_true_r.
Qed.

End SuffixFacts.

(* ===================================================================== *)
(** ** The claims of the specification *)
(* ===================================================================== *)

Section Claims.
Import PyStr PosixPath OsWalk Spec.

(** C1: on a text where an underscore or a digit stands next to
    letters, such as [foo_bar] and [abc123], the code finds no word, where
    the maximal alphabetic runs are [foo] and [bar], and [abc], and where
    the comment above the pattern speaks of alphanumeric sequences of two
    characters or more.  The pattern is anchored by [\b] on both sides; an
    underscore and a digit are word characters, so no boundary separates
    the letters from them.  A file [base/a.py] that holds both texts and
    the word [done] gives [done] alone. *)
Theorem C1_letters_beside_digit_or_underscore_lost :
  Generator.file_words "foo_bar" = []
  /\ alphabetic_runs "foo_bar" = ["foo"; "bar"]
  /\ Generator.file_words "abc123" = []
  /\ alphabetic_runs "abc123" = ["abc"]
  /\ @Generator.collect_words posix_fnmatch
       (fun _ => Returned "foo_bar abc123 done") (Dir [] ["a.py"]) "base" []
     = ["done"].
Proof. repeat split; vm_compute; reflexivity. Qed.

(** C2, as the specification states it, fails on the base directory
    [build] with the pattern [build] and a file [a.py] directly in it: the
    ancestor [build] of [build/a.py] matches the predicate, [os.walk]
    starts at the base directory without asking the predicate, and the
    file is visited and counted as skipped by both pipelines. *)
Lemma C2_counterexample :
  Generator.should_exclude "build" ["build"] = true
  /\ In ("build", "a.py") (visited ["build"] "build" (Dir [] ["a.py"]))
  /\ Generator.files_skipped
       (Generator.collect_words_run (fun _ => Returned "") (Dir [] ["a.py"])
                                    "build" ["build"]) = 1
  /\ Languages.files_skipped
       (Languages.collect_languages_run (Dir [] ["a.py"]) "build" ["build"])
     = 1.
Proof.
  repeat split; try (vm_compute; reflexivity).
  left. reflexivity.
Qed.

(** C2 (amended): for all pattern sets and all files of the tree, if a
    directory strictly below the base directory on the way to the file
    matches the exclusion predicate, the file is never visited; and both
    pipelines compute their state, the processed and the skipped totals
    included, from the visited files alone, so nothing below an excluded
    directory is counted: each pipeline ends in the same state on the tree
    from which everything below the excluded directories is taken out. *)
Theorem C2_pruned_never_visited `{GlobMatcher}
    (read_text : string -> outcome string) (exclude_patterns : list string)
    (base_dir : string) (t : tree) (ds : list string) (file : string) :
  valid_tree t = true ->
  located t ds file ->
  existsb (fun a => Generator.should_exclude a exclude_patterns)
          (ancestors base_dir ds) = true ->
  ~ In (joins base_dir ds, file) (visited exclude_patterns base_dir t)
  /\ Generator.collect_words_run read_text t base_dir exclude_patterns
     = fold_left
         (fun st v =>
            Generator.words_file read_text exclude_patterns v.1 st v.2)
         (visited exclude_patterns base_dir t) Generator.words_init
  /\ Languages.collect_languages_run t base_dir exclude_patterns
     = fold_left
         (fun st v => Languages.lang_file exclude_patterns v.1 st v.2)
         (visited exclude_patterns base_dir t) Languages.lang_init
  /\ Generator.collect_words_run
       read_text (pruned exclude_patterns base_dir t) base_dir exclude_patterns
     = Generator.collect_words_run read_text t base_dir exclude_patterns
  /\ Languages.collect_languages_run
       (pruned exclude_patterns base_dir t) base_dir exclude_patterns
     = Languages.collect_languages_run t base_dir exclude_patterns.
Proof.
  intros Hv Hloc Hex. repeat split.
  - apply below_excluded_not_visited; assumption.
  - apply collect_words_run_fold.
  - apply collect_languages_run_fold.
  - rewrite !collect_words_run_fold, visited_pruned. reflexivity.
  - rewrite !collect_languages_run_fold, visited_pruned. reflexivity.
Qed.

(** The amended C2 on the tree with [node_modules/lib.js] and the pattern
    [node_modules]. *)
Lemma C2_pruned_never_visited_witness :
  valid_tree (Dir [("node_modules", Dir [] ["lib.js"])] ["a.py"]) = true
  /\ located (Dir [("node_modules", Dir [] ["lib.js"])] ["a.py"])
             ["node_modules"] "lib.js"
  /\ existsb (fun a => Generator.should_exclude a ["node_modules"])
             (ancestors "base" ["node_modules"]) = true
  /\ ~ In (joins "base" ["node_modules"], "lib.js")
          (visited ["node_modules"] "base"
             (Dir [("node_modules", Dir [] ["lib.js"])] ["a.py"])).
Proof.
  assert (Hloc : located (Dir [("node_modules", Dir [] ["lib.js"])] ["a.py"])
                         ["node_modules"] "lib.js").
  { eapply located_below; [left; reflexivity|].
    apply located_here. left. reflexivity. }
  split; [reflexivity|]. split; [exact Hloc|]. split; [reflexivity|].
  exact (proj1 (@C2_pruned_never_visited posix_fnmatch (fun _ => Returned "")
                  ["node_modules"] "base"
                  (Dir [("node_modules", Dir [] ["lib.js"])] ["a.py"])
                  ["node_modules"] "lib.js" eq_refl Hloc eq_refl)).
Defined.

(** C3: for every frequency table and every stopword set, the stopword
    filter removes exactly the keys that are in the set: such a key is
    absent from the result, and every other key is looked up in the
    result as in the table, present with its count unchanged or absent as
    before.  The set is the one the NLTK calls leave, and every set is
    left by some corpus. *)
Theorem C3_filter_removes_exactly_stopwords {A : Type} (lib : Generator.nltk)
    (word_counts : gmap string A) (word : string) :
  Generator.filter_stopwords lib word_counts !! word
  = (if decide (word ∈ Generator.english_stopwords lib) then None
     else word_counts !! word)
  /\ forall S : gset string,
       Generator.english_stopwords (Generator.Corpus (elements S)) = S.
Proof.
  split; [apply filter_stopwords_lookup|].
  intros S. apply list_to_set_elements_L.
Qed.

(** C4: in the language pipeline a file that is not excluded and whose
    lowercased extension is a key of [LANGUAGE_MAP] adds one to the count
    of the mapped label, is recorded under that label and counts as
    processed; with an extension that is not a key it changes nothing,
    neither the processed count, nor the skipped count, nor any language
    count.  A tree with [x.go], [y.rs] and [z.unknown] and no exclusions
    gives the counts Go 1 and Rust 1, two files processed and none
    skipped. *)
Theorem C4_language_extraction `{GlobMatcher}
    (exclude_patterns : list string) (root : string)
    (st : Languages.lang_state) (file : string) :
  Generator.should_exclude (join root file) exclude_patterns = false ->
  Languages.lang_file exclude_patterns root st file
  = match Languages.LANGUAGE_MAP !! lower (splitext file).2 with
    | Some language =>
        Languages.LangState
          (<[language :=
               default 0 (Languages.language_counts st !! language) + 1]>
             (Languages.language_counts st))
          (<[language :=
               default [] (Languages.files_by_language st !! language)
               ++ [join root file]]>
             (Languages.files_by_language st))
          (Languages.files_processed st + 1)
          (Languages.files_skipped st)
    | None => st
    end
  /\ (let run :=
        Languages.collect_languages_run
          (Dir [] ["x.go"; "y.rs"; "z.unknown"]) root [] in
      Languages.language_counts run = {[ "Go" := 1; "Rust" := 1 ]}
      /\ Languages.files_processed run = 2
      /\ Languages.files_skipped run = 0).
Proof.
  intros Hex. split.
  - destruct (Languages.LANGUAGE_MAP !! lower (splitext file).2) eqn:E.
    + apply lang_file_known; assumption.
    + apply lang_file_unknown; assumption.
  - cbv zeta. split; [|split]; vm_compute; reflexivity.
Qed.

(** C4 on the first and the last file of the scenario. *)
Lemma C4_language_extraction_witness :
  Generator.should_exclude (join "base" "x.go") [] = false
  /\ Languages.lang_file [] "base" Languages.lang_init "x.go"
     = Languages.LangState {[ "Go" := 1 ]} {[ "Go" := ["base/x.go"] ]} 1 0
  /\ Languages.lang_file [] "base" Languages.lang_init "z.unknown"
     = Languages.lang_init.
Proof.
  split; [reflexivity|]. split.
  - rewrite (proj1 (C4_language_extraction [] "base" Languages.lang_init
                      "x.go" eq_refl)).
    vm_compute. reflexivity.
  - rewrite (proj1 (C4_language_extraction [] "base" Languages.lang_init
                      "z.unknown" eq_refl)).
    vm_compute. reflexivity.
Defined.

(** C5: the programming-keyword set is not applied: for every frequency
    table, a programming keyword that is not an English stopword is
    looked up in the filtered table as in the table itself, so an entry
    is never removed merely because its key is a keyword. *)
Theorem C5_keywords_not_applied {A : Type} (lib : Generator.nltk)
    (word_counts : gmap string A) (word : string) :
  word ∈ Generator.programming_keywords ->
  word ∉ Generator.english_stopwords lib ->
  Generator.filter_stopwords lib word_counts !! word = word_counts !! word.
Proof.
  intros _ Hw. rewrite filter_stopwords_lookup.
  destruct (decide _); [contradiction|reflexivity].
Qed.

(** C5 on the keyword [def], with a stopword corpus that holds the keyword
    [if] but not [def]. *)
Lemma C5_keywords_not_applied_witness :
  ("def" ∈ Generator.programming_keywords)
  /\ ("def" ∉ Generator.english_stopwords (Generator.Corpus ["the"; "if"]))
  /\ Generator.filter_stopwords (Generator.Corpus ["the"; "if"])
       (Generator.Counter ["def"; "the"; "if"; "def"]) !! "def" = Some 2.
Proof.
  assert (H1 : "def" ∈ Generator.programming_keywords)
    by (apply (bool_decide_unpack _); vm_compute; exact I).
  assert (H2 : "def" ∉ Generator.english_stopwords (Generator.Corpus ["the"; "if"]))
    by (apply (bool_decide_unpack _); vm_compute; exact I).
  split; [exact H1|]. split; [exact H2|].
  rewrite (C5_keywords_not_applied _ _ _ H1 H2). vm_compute. reflexivity.
Defined.

(** C6: a failure to read one candidate file is caught for that file
    alone: the turn of the loop leaves the words and the counters as they
    were and writes one warning, and the run goes on, returning the words
    of every visited file that is not excluded, is a text file and can be
    read, in the order of the visit, with one warning for each file that
    could not be read. *)
Theorem C6_read_failure_is_local `{GlobMatcher}
    (read_text : string -> outcome string) (exclude_patterns : list string)
    (root : string) (st : Generator.words_state) (file e : string)
    (t : tree) (base_dir : string) :
  Generator.should_exclude (join root file) exclude_patterns = false ->
  Generator.is_text_file file = true ->
  read_text (join root file) = Raised e ->
  Generator.words_file read_text exclude_patterns root st file
  = Generator.WordsState
      (Generator.words st) (Generator.files_processed st)
      (Generator.files_skipped st)
      (Generator.stderr st ++ [Generator.warning (join root file) e])
  /\ contribution read_text exclude_patterns (root, file) = []
  /\ Generator.collect_words read_text t base_dir exclude_patterns
     = flat_map (contribution read_text exclude_patterns)
                (visited exclude_patterns base_dir t)
  /\ Generator.stderr
       (Generator.collect_words_run read_text t base_dir exclude_patterns)
     = flat_map (complaint read_text exclude_patterns)
                (visited exclude_patterns base_dir t).
Proof.
  intros Hex Htext Hread. split; [|split].
  - unfold Generator.words_file, Generator.read_words.
    rewrite Hex, Htext, Hread. reflexivity.
  - unfold contribution. cbn [fst snd]. rewrite Hex, Htext, Hread. reflexivity.
  - unfold Generator.collect_words. rewrite collect_words_run_fold.
    apply (fold_words read_text exclude_patterns _ Generator.words_init).
Qed.

(** C6 on three files of which the second cannot be read. *)
Lemma C6_read_failure_is_local_witness :
  let read_text := fun p : string =>
    if String.eqb p "base/b.py" then Raised "denied"
    else Returned "zz top" in
  Generator.should_exclude (join "base" "b.py") [] = false
  /\ Generator.is_text_file "b.py" = true
  /\ read_text (join "base" "b.py") = Raised "denied"
  /\ Generator.collect_words read_text (Dir [] ["a.py"; "b.py"; "c.py"]) "base" []
     = ["zz"; "top"; "zz"; "top"].
Proof.
  intros read_text.
  split; [reflexivity|]. split; [reflexivity|]. split; [reflexivity|].
  destruct (@C6_read_failure_is_local posix_fnmatch read_text [] "base"
              Generator.words_init
              "b.py" "denied" (Dir [] ["a.py"; "b.py"; "c.py"]) "base"
              eq_refl eq_refl eq_refl) as (_ & _ & E & _).
  rewrite E. vm_compute. reflexivity.
Defined.

(** C8, as stated, fails on a path whose final component is a single
    dot: [pathlib] drops that component from the parts, the base name
    still is the dot, and a pattern such as [.*] matches it, so the check
    of the base name does change the result. *)
Lemma C8_counterexample :
  basename "src/." = "."
  /\ parts "src/." = ["src"]
  /\ Generator.should_exclude "src/." [".*"] = true
  /\ some_segment_matches "src/." [".*"] = false.
Proof. repeat split; vm_compute; reflexivity. Qed.

(** C8 (amended): for every path whose final component is neither empty
    nor a single dot, and every pattern set, the exclusion predicate is
    true if and only if some path segment matches some pattern; the
    check of the base name never changes the result, the base name then
    being the final segment. *)
Theorem C8_basename_check_redundant `{GlobMatcher}
    (path : string) (exclude_patterns : list string) :
  basename path <> EmptyString ->
  basename path <> "." ->
  Generator.should_exclude path exclude_patterns
  = some_segment_matches path exclude_patterns
  /\ Languages.should_exclude path exclude_patterns
     = some_segment_matches path exclude_patterns.
Proof.
  intros Hne Hdot.
  change (Languages.should_exclude path exclude_patterns)
    with (Generator.should_exclude path exclude_patterns).
  assert (E : Generator.should_exclude path exclude_patterns
              = some_segment_matches path exclude_patterns).
  { unfold Generator.should_exclude, some_segment_matches.
    apply should_exclude_loop_segments, basename_in_parts; assumption. }
  split; exact E.
Qed.

(** The amended C8 on the path of a [node_modules] directory. *)
Lemma C8_basename_check_redundant_witness :
  basename "base/node_modules" <> EmptyString
  /\ basename "base/node_modules" <> "."
  /\ Generator.should_exclude "base/node_modules" ["*.pyc"; "node_modules"]
     = some_segment_matches "base/node_modules" ["*.pyc"; "node_modules"].
Proof.
  assert (H1 : basename "base/node_modules" <> EmptyString) by discriminate.
  assert (H2 : basename "base/node_modules" <> ".") by discriminate.
  split; [exact H1|]. split; [exact H2|].
  exact (proj1 (@C8_basename_check_redundant posix_fnmatch "base/node_modules"
                  ["*.pyc"; "node_modules"] H1 H2)).
Defined.

(** C9: the language aggregation keeps its invariant at every step and
    at return: after any number of visited files, and in the state the
    function ends in, the processed-files counter is the sum of all
    language counts, the count of every label is the number of file
    paths recorded under it, and the two maps have the same keys. *)
Theorem C9_language_invariant `{GlobMatcher}
    (exclude_patterns : list string) (t : tree) (base_dir : string) :
  (forall n,
      lang_invariant
        (fold_left
           (fun st v => Languages.lang_file exclude_patterns v.1 st v.2)
           (firstn n (visited exclude_patterns base_dir t))
           Languages.lang_init))
  /\ Languages.collect_languages_run t base_dir exclude_patterns
     = fold_left
         (fun st v => Languages.lang_file exclude_patterns v.1 st v.2)
         (visited exclude_patterns base_dir t) Languages.lang_init
  /\ lang_invariant
       (Languages.collect_languages_run t base_dir exclude_patterns).
Proof.
  split; [|split].
  - intros n. apply lang_invariant_fold, lang_invariant_init.
  - apply collect_languages_run_fold.
  - rewrite collect_languages_run_fold.
    apply lang_invariant_fold, lang_invariant_init.
Qed.

(** C10: in the word pipeline the allow-list is a case-sensitive suffix
    test on the whole file name: a file is a text file exactly when its
    name ends with one of the listed extensions.  So a file named [.py]
    is a text file and is processed, and [A.PY] is ignored without a
    trace, while the language pipeline, which lowercases the extension,
    counts [A.PY] as Python. *)
Theorem C10_allow_list_is_suffix_test `{GlobMatcher}
    (read_text : string -> outcome string) (exclude_patterns : list string)
    (root : string) (st : Generator.words_state)
    (lst : Languages.lang_state) (content : string) :
  Generator.should_exclude (join root ".py") exclude_patterns = false ->
  Generator.should_exclude (join root "A.PY") exclude_patterns = false ->
  read_text (join root ".py") = Returned content ->
  (forall file,
      Generator.is_text_file file = true
      <-> exists stem ext,
            In ext Generator.text_extensions /\ file = stem +:+ ext)
  /\ Generator.is_text_file ".py" = true
  /\ Generator.words_file read_text exclude_patterns root st ".py"
     = Generator.WordsState
         (Generator.words st ++ Generator.file_words content)
         (Generator.files_processed st + 1)
         (Generator.files_skipped st) (Generator.stderr st)
  /\ Generator.is_text_file "A.PY" = false
  /\ Generator.words_file read_text exclude_patterns root st "A.PY" = st
  /\ Languages.lang_file exclude_patterns root lst "A.PY"
     = Languages.LangState
         (<["Python" :=
              default 0 (Languages.language_counts lst !! "Python") + 1]>
            (Languages.language_counts lst))
         (<["Python" :=
              default [] (Languages.files_by_language lst !! "Python")
              ++ [join root "A.PY"]]>
            (Languages.files_by_language lst))
         (Languages.files_processed lst + 1)
         (Languages.files_skipped lst).
Proof.
  intros Hpy HPY Hread. repeat split.
  - unfold Generator.is_text_file. intros Hf.
    apply existsb_exists in Hf as (ext & Hin & Hf).
    apply endswith_spec in Hf as [stem ->]. eauto.
  - intros (stem & ext & Hin & ->). unfold Generator.is_text_file.
    apply existsb_exists. exists ext. split; [exact Hin|].
    apply endswith_spec. eauto.
  - unfold Generator.words_file, Generator.read_words.
    rewrite Hpy, Hread. reflexivity.
  - unfold Generator.words_file. rewrite HPY. reflexivity.
  - apply lang_file_known; [exact HPY | reflexivity].
Qed.

(** C10 on the files [.py] and [A.PY] of a directory [base]. *)
Lemma C10_allow_list_is_suffix_test_witness :
  Generator.should_exclude (join "base" ".py") ["node_modules"] = false
  /\ Generator.should_exclude (join "base" "A.PY") ["node_modules"] = false
  /\ Generator.files_processed
       (Generator.words_file (fun _ => Returned "zz top") ["node_modules"]
                             "base" Generator.words_init ".py") = 1
  /\ Generator.words_file (fun _ => Returned "zz top") ["node_modules"]
                          "base" Generator.words_init "A.PY"
     = Generator.words_init
  /\ Languages.language_counts
       (Languages.lang_file ["node_modules"] "base" Languages.lang_init "A.PY")
     = {[ "Python" := 1 ]}.
Proof.
  destruct (@C10_allow_list_is_suffix_test posix_fnmatch
              (fun _ => Returned "zz top")
              ["node_modules"] "base" Generator.words_init
              Languages.lang_init "zz top" eq_refl eq_refl eq_refl)
    as (_ & _ & E1 & _ & E2 & E3).
  split; [reflexivity|]. split; [reflexivity|].
  rewrite E1, E2, E3. repeat split.
Defined.

End Claims.

(* ===================================================================== *)
(** ** Scenarios of the specification *)
(* ===================================================================== *)

Section Scenarios.
Import Spec.

(** [a.py] holding [def foo(): return foo], no exclusions. *)
Example scenario_def_foo :
  let words :=
    Generator.collect_words (fun _ => Returned "def foo(): return foo")
                            (Dir [] ["a.py"]) "base" [] in
  words = ["def"; "foo"; "return"; "foo"]
  /\ Generator.Counter words = {[ "def" := 1; "foo" := 2; "return" := 1 ]}
  /\ Generator.filter_stopwords (Generator.Corpus ["the"; "a"])
       (Generator.Counter words)
     = Generator.Counter words.
Proof. cbv zeta. split; [|split]; vm_compute; reflexivity. Qed.

(** [node_modules/lib.js] with the pattern [node_modules]: the directory
    is not entered and the file is in neither total. *)
Example scenario_node_modules :
  let t := Dir [("node_modules", Dir [] ["lib.js"])] [] in
  visited ["node_modules"] "base" t = []
  /\ Generator.collect_words_run (fun _ => Returned "lib") t "base"
       ["node_modules"]
     = Generator.words_init
  /\ Languages.collect_languages_run t "base" ["node_modules"]
     = Languages.lang_init.
Proof. cbv zeta. split; [|split]; vm_compute; reflexivity. Qed.

(** An empty base directory. *)
Example scenario_empty :
  Generator.collect_words_run (fun _ => Raised "unused") (Dir [] []) "base" []
  = Generator.words_init
  /\ Languages.collect_languages (Dir [] []) "base" [] = (∅, ∅).
Proof. split; vm_compute; reflexivity. Qed.

End Scenarios.

(* ===================================================================== *)
(** ** More on paths *)
(* ===================================================================== *)

Section MorePathFacts.
Import PyStr PosixPath Spec Listing.

Lemma contains_app (c : ascii) (s t : string) :
  contains c (s +:+ t) = contains c s || contains c t.
Proof.
  induction s as [|a s IH]; [reflexivity|].
  rewrite app_cons. cbn [contains]. rewrite IH, orb_assoc. reflexivity.
Qed.

Lemma basename_no_sep (d : string) : contains sep d = false -> basename d = d.
Proof. destruct d as [|c d]; [reflexivity|]. cbn [basename]. intros ->. reflexivity. Qed.

Lemma basename_app_sep (s d : string) :
  contains sep d = false -> basename (s +:+ String sep d) = d.
Proof.
  intros Hd. induction s as [|c s IH].
  - rewrite app_empty_l. cbn [basename contains].
    rewrite Ascii.eqb_refl. cbn [orb]. apply basename_no_sep, Hd.
  - rewrite app_cons. cbn [basename].
    replace (contains sep (String c (s +:+ String sep d))) with true; [exact IH|].
    cbn [contains]. rewrite contains_app. cbn [contains].
    rewrite Ascii.eqb_refl, !orb_true_r. reflexivity.
Qed.

(** Where [os.path.join] adds no separator, the directory is empty or
    brings one. *)
Lemma connector_cases (a : string) :
  (connector a = String sep EmptyString)
  \/ (connector a = EmptyString
      /\ (a = EmptyString \/ exists s0, a = s0 +:+ String sep EmptyString)).
Proof.
  unfold connector. destruct (String.eqb_spec a EmptyString) as [->|Hne].
  - right. auto.
  - cbn [orb]. destruct (endswith a (String sep EmptyString)) eqn:E; [|left; reflexivity].
    right. split; [reflexivity|]. right. apply endswith_spec. exact E.
Qed.

(** The base name of a joined path is the name joined. *)
Lemma basename_join (a d : string) :
  valid_name d = true -> basename (join a d) = d.
Proof.
  intros Hd. pose proof (valid_name_no_sep d Hd) as Hs.
  rewrite join_valid by exact Hd.
  destruct (connector_cases a) as [->|[-> [->|[s0 ->]]]].
  - apply basename_app_sep, Hs.
  - rewrite !app_empty_l. apply basename_no_sep, Hs.
  - rewrite app_empty_l, app_assoc_str. apply basename_app_sep, Hs.
Qed.

Lemma split_app_sep (s t : string) :
  split sep (s +:+ String sep t) = split sep s ++ split sep t.
Proof.
  induction s as [|c s IH].
  - rewrite app_empty_l. cbn [split]. rewrite Ascii.eqb_refl. reflexivity.
  - rewrite app_cons. cbn [split]. rewrite IH.
    destruct (Ascii.eqb c sep); [reflexivity|].
    destruct (split sep s) as [|h tl] eqn:E; [|reflexivity].
    apply split_nonempty in E. contradiction.
Qed.

(** The root of a path, as a list of at most one part. *)
Lemma parts_root_split (p : string) :
  parts p
  = (if String.eqb (splitroot p).1 EmptyString then [] else [(splitroot p).1])
    ++ List.filter kept_component (split sep p).
Proof.
  unfold parts. destruct p as [|a p1]; [reflexivity|]. cbn [splitroot].
  destruct (Ascii.eqb a sep) eqn:Ea; [|reflexivity].
  assert (E1 : forall q, List.filter kept_component (split sep (String a q))
                         = List.filter kept_component (split sep q))
    by (intros q; cbn [split]; rewrite Ea; reflexivity).
  destruct p1 as [|b p2]; [cbn [fst snd]; rewrite E1; reflexivity|].
  destruct (Ascii.eqb b sep) eqn:Eb; [|cbn [fst snd]; rewrite E1; reflexivity].
  assert (E2 : forall q, List.filter kept_component (split sep (String b q))
                         = List.filter kept_component (split sep q))
    by (intros q; cbn [split]; rewrite Eb; reflexivity).
  destruct p2 as [|c p3]; [cbn [fst snd]; rewrite E1, E2; reflexivity|].
  destruct (Ascii.eqb c sep); cbn [fst snd]; rewrite E1, ?E2; reflexivity.
Qed.

(** Joining a name below a directory leaves the root of its path as it
    is. *)
Lemma splitroot_join (a d : string) :
  a <> EmptyString -> valid_name d = true ->
  (splitroot (join a d)).1 = (splitroot a).1.
Proof.
  intros Ha Hd. rewrite join_valid by exact Hd.
  assert (Hhead : sep_headed d = false).
  { pose proof (valid_name_no_sep d Hd) as Hs.
    destruct d as [|e d]; [discriminate|].
    cbn [contains] in Hs. apply orb_false_iff in Hs as [Hs _]. exact Hs. }
  destruct a as [|c1 a1]; [contradiction|].
  rewrite app_cons. cbn [splitroot].
  destruct (Ascii.eqb c1 sep) eqn:E1; [|reflexivity].
  apply Ascii.eqb_eq in E1 as ->.
  destruct a1 as [|c2 a2].
  { (* the directory is the root *)
    destruct d as [|e d]; [discriminate|]. cbn [sep_headed] in Hhead.
    replace (connector (String sep EmptyString)) with EmptyString by reflexivity.
    rewrite !app_empty_l. rewrite Hhead. reflexivity. }
  rewrite app_cons.
  destruct (Ascii.eqb c2 sep) eqn:E2; [|reflexivity].
  apply Ascii.eqb_eq in E2 as ->.
  destruct a2 as [|c3 a3].
  { destruct d as [|e d]; [discriminate|]. cbn [sep_headed] in Hhead.
    replace (connector (String sep (String sep EmptyString))) with EmptyString
      by reflexivity.
    rewrite !app_empty_l. rewrite Hhead. reflexivity. }
  rewrite app_cons. destruct (Ascii.eqb c3 sep); reflexivity.
Qed.

(** Every part of a directory's path is a part of the paths below it. *)
Lemma parts_join_incl (a d x : string) :
  valid_name d = true -> In x (parts a) -> In x (parts (join a d)).
Proof.
  intros Hd Hx. destruct (String.eqb_spec a EmptyString) as [->|Ha].
  { contradiction. }
  rewrite parts_root_split in Hx |- *. rewrite splitroot_join by assumption.
  apply in_app_or in Hx as [Hx|Hx]; apply in_or_app; [left; exact Hx|right].
  apply filter_In in Hx as [Hx Hk]. apply filter_In. split; [|exact Hk].
  rewrite join_valid by exact Hd.
  destruct (connector_cases a) as [->|[-> [->|[s0 ->]]]].
  - change (String sep EmptyString +:+ d) with (String sep d).
    rewrite split_app_sep. apply in_or_app. left. exact Hx.
  - contradiction.
  - rewrite app_empty_l, app_assoc_str.
    change (String sep EmptyString +:+ d) with (String sep d).
    rewrite split_app_sep.
    rewrite split_app_sep in Hx. apply in_app_or in Hx as [Hx|Hx].
    + apply in_or_app. left. exact Hx.
    + destruct Hx as [<-|[]]. discriminate.
Qed.

Lemma proper_name_valid (d : string) : proper_name d = true -> valid_name d = true.
Proof. unfold proper_name. intros Hd. apply andb_true_iff in Hd as [Hd _]. exact Hd. Qed.

Lemma proper_way_valid (ds : list string) :
  proper_way ds = true -> forallb valid_name ds = true.
Proof.
  unfold proper_way. induction ds as [|d ds IH]; [reflexivity|].
  cbn [forallb]. intros Hd. apply andb_true_iff in Hd as [Hd Hds].
  rewrite (proper_name_valid d Hd), IH by exact Hds. reflexivity.
Qed.

End MorePathFacts.

(* ===================================================================== *)
(** ** More on the exclusion predicate *)
(* ===================================================================== *)

Section MoreExcludeFacts.
Import PyStr PosixPath Spec Listing.
Context `{GlobMatcher}.

Lemma should_exclude_loop_app (ps : list string) (path : string)
    (P1 P2 : list string) :
  Generator.should_exclude_loop ps path (P1 ++ P2)
  = Generator.should_exclude_loop ps path P1
    || Generator.should_exclude_loop ps path P2.
Proof.
  induction P1 as [|pattern P1 IH]; [reflexivity|].
  cbn [app Generator.should_exclude_loop].
  destruct (existsb (fun part => fnmatch part pattern) ps); [reflexivity|].
  destruct (fnmatch (basename path) pattern); [reflexivity|]. exact IH.
Qed.

Lemma segments_exclude (ps : list string) (path : string)
    (exclude_patterns : list string) :
  existsb (fun pattern => existsb (fun part => fnmatch part pattern) ps)
          exclude_patterns = true ->
  Generator.should_exclude_loop ps path exclude_patterns = true.
Proof.
  induction exclude_patterns as [|pattern rest IH]; [discriminate|].
  cbn [existsb Generator.should_exclude_loop].
  destruct (existsb (fun part => fnmatch part pattern) ps); [reflexivity|].
  cbn [orb]. intros Hr. rewrite IH by exact Hr.
  destruct (fnmatch (basename path) pattern); reflexivity.
Qed.

Lemma segments_join (a d : string) (exclude_patterns : list string) :
  valid_name d = true ->
  some_segment_matches a exclude_patterns = true ->
  some_segment_matches (join a d) exclude_patterns = true.
Proof.
  unfold some_segment_matches. intros Hd Ha.
  apply existsb_exists in Ha as (pattern & Hp & Ha).
  apply existsb_exists in Ha as (part & Hin & Hm).
  apply existsb_exists. exists pattern. split; [exact Hp|].
  apply existsb_exists. exists part. split; [|exact Hm].
  apply parts_join_incl; assumption.
Qed.

(** For the path of a listed entry the predicate asks the segments only. *)
Lemma should_exclude_entry (a d : string) (exclude_patterns : list string) :
  proper_name d = true ->
  Generator.should_exclude (join a d) exclude_patterns
  = some_segment_matches (join a d) exclude_patterns.
Proof.
  intros Hd. pose proof (proper_name_valid d Hd) as Hv.
  unfold Generator.should_exclude, some_segment_matches.
  apply should_exclude_loop_segments, basename_in_parts;
    rewrite basename_join by exact Hv.
  - apply valid_name_nonempty, Hv.
  - unfold proper_name in Hd. apply andb_true_iff in Hd as [_ Hd].
    apply negb_true_iff in Hd. intros ->. discriminate.
Qed.

Lemma segments_joins (a : string) (l : list string)
    (exclude_patterns : list string) :
  forallb valid_name l = true ->
  some_segment_matches a exclude_patterns = true ->
  some_segment_matches (joins a l) exclude_patterns = true.
Proof.
  revert a. induction l as [|d l IH]; intros a Hl Ha; [exact Ha|].
  cbn [forallb] in Hl. apply andb_true_iff in Hl as [Hd Hl].
  cbn [joins fold_left]. apply (IH (join a d)); [exact Hl|].
  apply segments_join; assumption.
Qed.

End MoreExcludeFacts.

(* ===================================================================== *)
(** ** More on the walk *)
(* ===================================================================== *)

Section MoreWalkFacts.
Import PyStr PosixPath OsWalk Spec Listing.
Context `{GlobMatcher}.
Variable exclude_patterns : list string.

Lemma find_sub_unique (subdirs : list (string * tree)) (d : string) (sub : tree) :
  NoDup (map fst subdirs) -> In (d, sub) subdirs -> find_sub d subdirs = Some sub.
Proof.
  induction subdirs as [|[n s] l IH]; intros Hnd Hin; [contradiction|].
  cbn [map fst] in Hnd. apply NoDup_cons in Hnd as [Hn Hnd].
  cbn [find_sub]. destruct Hin as [[= -> ->]|Hin].
  - rewrite String.eqb_refl. reflexivity.
  - destruct (String.eqb_spec n d) as [->|_]; [|apply IH; assumption].
    exfalso. apply Hn, list_elem_of_In, in_map_iff. exists (d, sub). auto.
Qed.

Lemma unique_names_sub (subdirs : list (string * tree)) (files : list string)
    (d : string) (sub : tree) :
  unique_names (Dir subdirs files) -> In (d, sub) subdirs -> unique_names sub.
Proof.
  cbn [unique_names]. intros [_ Hall].
  induction subdirs as [|[n s] l IH]; intros Hin; [contradiction|].
  destruct Hall as [Hs Hl]. destruct Hin as [[= -> ->]|Hin]; [exact Hs|].
  apply IH; assumption.
Qed.

(** A listed file is visited when no directory on the way down to it is
    excluded. *)
Lemma not_excluded_visited (t : tree) (ds : list string) (file : string) :
  located t ds file ->
  forall top,
    unique_names t ->
    existsb (fun a => Generator.should_exclude a exclude_patterns)
            (ancestors top ds) = false ->
    In (joins top ds, file) (visited exclude_patterns top t).
Proof.
  induction 1 as [subdirs files file Hf|subdirs files d sub ds file Hin Hloc IH];
    intros top Hu Hex; rewrite visited_Dir; apply in_or_app.
  - left. apply in_map. exact Hf.
  - right. cbn [ancestors existsb] in Hex. apply orb_false_iff in Hex as [Hd Hex].
    apply in_flat_map. exists d. split.
    + apply filter_In. split.
      * apply in_map_iff. exists (d, sub). auto.
      * rewrite Hd. reflexivity.
    + rewrite (find_sub_unique subdirs d sub); [|apply Hu|exact Hin].
      apply IH; [|exact Hex]. eapply unique_names_sub; eassumption.
Qed.

(** The skipped counter of the word loop counts the excluded visits. *)
Lemma words_skipped_fold (read_text : string -> outcome string)
    (l : list (string * string)) (st : Generator.words_state) :
  Generator.files_skipped
    (fold_left
       (fun st v => Generator.words_file read_text exclude_patterns v.1 st v.2)
       l st)
  = Generator.files_skipped st
    + length (List.filter (skipped_visit exclude_patterns) l).
Proof.
  revert st. induction l as [|[root file] l IH]; intros st; cbn [fold_left].
  - cbn. lia.
  - rewrite IH. cbn [List.filter fst snd].
    unfold Generator.words_file, Generator.read_words, skipped_visit.
    cbn [fst snd].
    destruct (Generator.should_exclude (join root file) exclude_patterns);
      [cbn; lia|].
    destruct (Generator.is_text_file file); cbn [negb]; [|lia].
    destruct (read_text (join root file)); cbn; lia.
Qed.

Lemma lang_skipped_fold (l : list (string * string)) (st : Languages.lang_state) :
  Languages.files_skipped
    (fold_left (fun st v => Languages.lang_file exclude_patterns v.1 st v.2) l st)
  = Languages.files_skipped st
    + length (List.filter (skipped_visit exclude_patterns) l).
Proof.
  revert st. induction l as [|[root file] l IH]; intros st; cbn [fold_left].
  - cbn. lia.
  - rewrite IH. cbn [List.filter fst snd]. unfold skipped_visit. cbn [fst snd].
    destruct (Generator.should_exclude (join root file) exclude_patterns) eqn:E.
    + rewrite lang_file_excluded by exact E. cbn. lia.
    + destruct (Languages.LANGUAGE_MAP !! lower (splitext file).2) eqn:El.
      * rewrite (lang_file_known _ _ _ _ _ E El). cbn. lia.
      * rewrite lang_file_unknown by assumption. lia.
Qed.

(** Every candidate of the word loop is either processed or warned
    about. *)
Lemma words_processed_fold (read_text : string -> outcome string)
    (l : list (string * string)) (st : Generator.words_state) :
  let st' :=
    fold_left
      (fun st v => Generator.words_file read_text exclude_patterns v.1 st v.2)
      l st in
  Generator.files_processed st' + length (Generator.stderr st')
  = Generator.files_processed st + length (Generator.stderr st)
    + length (List.filter (candidate exclude_patterns) l).
Proof.
  revert st. induction l as [|[root file] l IH]; intros st; cbn [fold_left].
  - cbn. lia.
  - cbn zeta in IH |- *. rewrite IH. cbn [List.filter].
    unfold Generator.words_file, Generator.read_words, candidate, skipped_visit.
    cbn [fst snd].
    destruct (Generator.should_exclude (join root file) exclude_patterns);
      [cbn; lia|].
    destruct (Generator.is_text_file file); cbn [negb andb]; [|lia].
    destruct (read_text (join root file)); cbn; rewrite ?length_app; cbn; lia.
Qed.

End MoreWalkFacts.

(* ===================================================================== *)
(** ** The extracted words *)
(* ===================================================================== *)

Section VocabularyFacts.
Import PyStr Re Spec Listing.

Lemma all_chars_app (q : ascii -> bool) (s t : string) :
  all_chars q (s +:+ t) = all_chars q s && all_chars q t.
Proof.
  induction s as [|c s IH]; [reflexivity|].
  rewrite app_cons. cbn [all_chars]. rewrite IH, andb_assoc. reflexivity.
Qed.

Lemma all_chars_and (p q r : ascii -> bool) (s : string) :
  (forall c, p c = true -> q c = true -> r c = true) ->
  all_chars p s = true -> all_chars q s = true -> all_chars r s = true.
Proof.
  intros Hr. induction s as [|c s IH]; [reflexivity|]. cbn [all_chars].
  intros Hp Hq. apply andb_true_iff in Hp as [Hpc Hp].
  apply andb_true_iff in Hq as [Hqc Hq].
  rewrite (Hr c Hpc Hqc), IH by assumption. reflexivity.
Qed.

(** A run is made of characters of the text. *)
Lemma runs_from_all (p q : ascii -> bool) (s : string) :
  forall cur w,
    all_chars q cur = true -> all_chars q s = true ->
    In w (runs_from p cur s) -> all_chars q w = true.
Proof.
  induction s as [|c s IH]; intros cur w Hcur Hs Hw; cbn [runs_from] in Hw.
  - destruct cur; [contradiction|]. destruct Hw as [<-|[]]. exact Hcur.
  - cbn [all_chars] in Hs. apply andb_true_iff in Hs as [Hc Hs].
    destruct (p c).
    + apply (IH (cur +:+ String c EmptyString)); [|exact Hs|exact Hw].
      rewrite all_chars_app, Hcur. cbn. rewrite Hc. reflexivity.
    + apply in_app_or in Hw as [Hw|Hw].
      * destruct cur; [contradiction|]. destruct Hw as [<-|[]]. exact Hcur.
      * apply (IH EmptyString); [reflexivity|exact Hs|exact Hw].
Qed.

Lemma lower_char_not_capital (c : ascii) :
  in_range 65 90 (lower_char c) = false.
Proof. destruct c as [[] [] [] [] [] [] [] []]; vm_compute; reflexivity. Qed.

Lemma lower_not_capital (s : string) :
  all_chars (fun c => negb (in_range 65 90 c)) (lower s) = true.
Proof.
  induction s as [|c s IH]; [reflexivity|].
  cbn [lower all_chars]. rewrite lower_char_not_capital, IH. reflexivity.
Qed.

Lemma file_words_lowercase (content w : string) :
  In w (Generator.file_words content) ->
  all_chars is_lowercase_letter w = true /\ 2 <= String.length w.
Proof.
  unfold Generator.file_words. rewrite findall_whole_words.
  intros Hw. apply filter_In in Hw as [Hw Hok].
  unfold whole_word in Hok. apply andb_true_iff in Hok as [Hl Hlen].
  split; [|apply Nat.leb_le; exact Hlen].
  apply (all_chars_and is_ascii_letter (fun c => negb (in_range 65 90 c))).
  - intros c. unfold is_ascii_letter, is_lowercase_letter.
    destruct (in_range 97 122 c); [reflexivity|].
    destruct (in_range 65 90 c); discriminate.
  - exact Hl.
  - apply (runs_from_all is_word _ (lower content) EmptyString);
      [reflexivity|apply lower_not_capital|exact Hw].
Qed.

End VocabularyFacts.

(* ===================================================================== *)
(** ** Counting and filtering *)
(* ===================================================================== *)

Section CounterFacts.
Import PyStr Spec Listing.

Lemma counter_step_lookup (counts : gmap string nat) (x w : string) :
  default 0 (<[x := default 0 (counts !! x) + 1]> counts !! w)
  = default 0 (counts !! w) + (if String.eqb w x then 1 else 0).
Proof.
  destruct (String.eqb_spec w x) as [->|Hne].
  - rewrite lookup_insert_eq. reflexivity.
  - rewrite lookup_insert_ne by congruence. lia.
Qed.

Lemma counter_fold_lookup (words : list string) (counts : gmap string nat)
    (w : string) :
  default 0
    (fold_left
       (fun counts word => <[word := default 0 (counts !! word) + 1]> counts)
       words counts !! w)
  = default 0 (counts !! w) + occurrences w words.
Proof.
  revert counts. induction words as [|x l IH]; intros counts; cbn [fold_left].
  - unfold occurrences. cbn. lia.
  - rewrite IH, counter_step_lookup. unfold occurrences. cbn [List.filter].
    destruct (String.eqb w x); cbn [length]; lia.
Qed.

Lemma counter_fold_present (words : list string) (counts : gmap string nat)
    (w : string) :
  fold_left
    (fun counts word => <[word := default 0 (counts !! word) + 1]> counts)
    words counts !! w = None ->
  counts !! w = None /\ occurrences w words = 0.
Proof.
  revert counts. induction words as [|x l IH]; intros counts; cbn [fold_left].
  - auto.
  - intros Hn. apply IH in Hn as [Hn Ho].
    destruct (String.eqb_spec w x) as [->|Hne].
    + rewrite lookup_insert_eq in Hn. discriminate.
    + rewrite lookup_insert_ne in Hn by congruence.
      split; [exact Hn|]. unfold occurrences in *. cbn [List.filter].
      destruct (String.eqb_spec w x); [contradiction|exact Ho].
Qed.

Lemma counter_lookup (words : list string) (w : string) :
  Generator.Counter words !! w
  = if occurrences w words =? 0 then None else Some (occurrences w words).
Proof.
  pose proof (counter_fold_lookup words ∅ w) as Hd.
  rewrite lookup_empty in Hd. cbn in Hd.
  fold (Generator.Counter words) in Hd.
  destruct (Generator.Counter words !! w) as [n|] eqn:E.
  - cbn in Hd. subst n.
    destruct (occurrences w words) as [|k] eqn:Ek; [|reflexivity].
    exfalso.
    assert (Hpos : forall l (m : gmap string nat),
               (forall v n, m !! v = Some n -> 1 <= n) ->
               forall v n,
                 fold_left
                   (fun counts word =>
                      <[word := default 0 (counts !! word) + 1]> counts)
                   l m !! v = Some n -> 1 <= n).
    { induction l as [|x l IHl]; intros m Hm v n; cbn [fold_left]; [apply Hm|].
      apply IHl. intros v' n'. destruct (decide (x = v')) as [<-|Hne].
      - rewrite lookup_insert_eq. intros [= <-]. lia.
      - rewrite lookup_insert_ne by exact Hne. apply Hm. }
    apply (Hpos words ∅) in E; [lia|].
    intros v n. rewrite lookup_empty. discriminate.
  - apply counter_fold_present in E as [_ ->]. reflexivity.
Qed.

Lemma counter_total (words : list string) :
  total (Generator.Counter words) = length words.
Proof.
  unfold Generator.Counter.
  assert (Hf : forall l (m : gmap string nat),
             total
               (fold_left
                  (fun counts word =>
                     <[word := default 0 (counts !! word) + 1]> counts)
                  l m)
             = total m + length l).
  { induction l as [|x l IH]; intros m; cbn [fold_left length]; [lia|].
    rewrite IH, total_incr. lia. }
  rewrite Hf. reflexivity.
Qed.

Lemma filter_stopwords_idempotent {A : Type} (lib : Generator.nltk)
    (word_counts : gmap string A) :
  Generator.filter_stopwords lib (Generator.filter_stopwords lib word_counts)
  = Generator.filter_stopwords lib word_counts.
Proof.
  apply map_eq. intros w. rewrite !filter_stopwords_lookup.
  destruct (decide _); reflexivity.
Qed.

Lemma filter_stopwords_degraded {A : Type} (lib : Generator.nltk)
    (word_counts : gmap string A) :
  Generator.english_stopwords lib = ∅ ->
  Generator.filter_stopwords lib word_counts = word_counts.
Proof.
  intros He. apply map_eq. intros w. rewrite filter_stopwords_lookup, He.
  destruct (decide (w ∈ (∅ : gset string))) as [Hin|_]; [|reflexivity].
  apply not_elem_of_empty in Hin. contradiction.
Qed.

End CounterFacts.

(* ===================================================================== *)
(** ** Stripped lines *)
(* ===================================================================== *)

Section StripFacts.
Import PyStr Spec.

Lemma lstrip_head (s : string) : head_is isspace (lstrip s) = false.
Proof.
  induction s as [|c s IH]; [reflexivity|]. cbn [lstrip].
  destruct (isspace c) eqn:E; [exact IH|]. cbn [head_is]. exact E.
Qed.

Lemma lstrip_id (x : string) : head_is isspace x = false -> lstrip x = x.
Proof. destruct x as [|c x]; [reflexivity|]. cbn [head_is lstrip]. intros ->. reflexivity. Qed.

Lemma rstrip_cons (c : ascii) (s : string) :
  rstrip (String c s)
  = match rstrip s with
    | EmptyString => if isspace c then EmptyString else String c EmptyString
    | String d r => String c (String d r)
    end.
Proof. cbn [rstrip]. destruct (rstrip s); reflexivity. Qed.

Lemma rstrip_idempotent (s : string) : rstrip (rstrip s) = rstrip s.
Proof.
  induction s as [|c s IH]; [reflexivity|]. rewrite rstrip_cons.
  destruct (rstrip s) as [|d r] eqn:E.
  - destruct (isspace c) eqn:Ec; [reflexivity|].
    rewrite rstrip_cons. cbn [rstrip]. rewrite Ec. reflexivity.
  - rewrite rstrip_cons, IH. reflexivity.
Qed.

Lemma rstrip_lstrip (x : string) : rstrip x = x -> rstrip (lstrip x) = lstrip x.
Proof.
  induction x as [|c x IH]; [reflexivity|]. cbn [lstrip].
  destruct (isspace c) eqn:Ec; [|auto].
  rewrite rstrip_cons, Ec.
  destruct (rstrip x) as [|d r] eqn:E; [discriminate|].
  intros [= Ex]. apply IH. exact Ex.
Qed.

(** Stripping twice is stripping once. *)
Lemma strip_idempotent (s : string) : strip (strip s) = strip s.
Proof.
  unfold strip.
  rewrite (rstrip_lstrip (rstrip s)) by apply rstrip_idempotent.
  apply lstrip_id, lstrip_head.
Qed.

Lemma pattern_lines_clean (content p : string) :
  In p (pattern_lines content) ->
  p <> EmptyString /\ startswith p "#" = false /\ strip p = p.
Proof.
  unfold pattern_lines. intros Hp. apply filter_In in Hp as [Hp Hk].
  apply in_map_iff in Hp as (line & <- & _).
  unfold is_pattern_line in Hk. apply andb_true_iff in Hk as [Hne Hc].
  apply negb_true_iff in Hne, Hc. repeat split.
  - intros E. rewrite E in Hne. discriminate.
  - exact Hc.
  - apply strip_idempotent.
Qed.

End StripFacts.

(* ===================================================================== *)
(** ** More on the language loop *)
(* ===================================================================== *)

Section MoreLanguageFacts.
Import PyStr PosixPath OsWalk Spec Listing.
Context `{GlobMatcher}.
Variable exclude_patterns : list string.

(** What one file adds under one label. *)
Lemma lang_file_label (root : string) (st : Languages.lang_state)
    (file L : string) :
  let st' := Languages.lang_file exclude_patterns root st file in
  let hit := speaks exclude_patterns L (root, file) in
  default 0 (Languages.language_counts st' !! L)
  = default 0 (Languages.language_counts st !! L) + (if hit then 1 else 0)
  /\ default [] (Languages.files_by_language st' !! L)
     = default [] (Languages.files_by_language st !! L)
       ++ (if hit then [join root file] else []).
Proof.
  cbn zeta. unfold speaks, skipped_visit. cbn [fst snd].
  destruct (Generator.should_exclude (join root file) exclude_patterns) eqn:Hex.
  { rewrite lang_file_excluded by exact Hex. cbn. rewrite app_nil_r. split; [lia|reflexivity]. }
  destruct (Languages.LANGUAGE_MAP !! lower (splitext file).2) as [L0|] eqn:Hl.
  2:{ rewrite lang_file_unknown by assumption. cbn.
      rewrite bool_decide_eq_false_2 by discriminate.
      rewrite app_nil_r. split; [lia|reflexivity]. }
  rewrite (lang_file_known _ _ _ _ _ Hex Hl). cbn [negb andb].
  cbn [Languages.language_counts Languages.files_by_language].
  destruct (decide (L0 = L)) as [->|Hne].
  - rewrite bool_decide_eq_true_2 by reflexivity.
    rewrite !lookup_insert_eq. cbn. split; reflexivity.
  - rewrite bool_decide_eq_false_2 by congruence.
    rewrite !lookup_insert_ne by exact Hne. rewrite app_nil_r. split; [lia|reflexivity].
Qed.

Lemma lang_fold_label (l : list (string * string)) (st : Languages.lang_state)
    (L : string) :
  let st' :=
    fold_left (fun st v => Languages.lang_file exclude_patterns v.1 st v.2) l st in
  default 0 (Languages.language_counts st' !! L)
  = default 0 (Languages.language_counts st !! L)
    + length (List.filter (speaks exclude_patterns L) l)
  /\ default [] (Languages.files_by_language st' !! L)
     = default [] (Languages.files_by_language st !! L)
       ++ map visit_path (List.filter (speaks exclude_patterns L) l).
Proof.
  revert st. induction l as [|[root file] l IH]; intros st; cbn [fold_left].
  - cbn. rewrite app_nil_r. split; [lia|reflexivity].
  - cbn zeta in IH |- *.
    destruct (IH (Languages.lang_file exclude_patterns root st file)) as [Hc Hf].
    destruct (lang_file_label root st file L) as [Hc1 Hf1]. cbn zeta in Hc1, Hf1.
    cbn [fst snd]. rewrite Hc, Hf, Hc1, Hf1. cbn [List.filter].
    destruct (speaks exclude_patterns L (root, file)); cbn [length map app].
    + rewrite <- app_assoc. split; [lia|reflexivity].
    + rewrite app_nil_r. split; [lia|reflexivity].
Qed.

(** No label is kept with a count of zero. *)
Lemma lang_file_positive (root : string) (st : Languages.lang_state) (file : string) :
  (forall L n, Languages.language_counts st !! L = Some n -> 1 <= n) ->
  forall L n,
    Languages.language_counts
      (Languages.lang_file exclude_patterns root st file) !! L = Some n ->
    1 <= n.
Proof.
  intros Hst L n.
  destruct (Generator.should_exclude (join root file) exclude_patterns) eqn:Hex.
  { rewrite lang_file_excluded by exact Hex. apply Hst. }
  destruct (Languages.LANGUAGE_MAP !! lower (splitext file).2) as [L0|] eqn:Hl.
  2:{ rewrite lang_file_unknown by assumption. apply Hst. }
  rewrite (lang_file_known _ _ _ _ _ Hex Hl). cbn [Languages.language_counts].
  destruct (decide (L0 = L)) as [->|Hne].
  - rewrite lookup_insert_eq. intros [= <-]. lia.
  - rewrite lookup_insert_ne by exact Hne. apply Hst.
Qed.

Lemma lang_fold_positive (l : list (string * string)) (st : Languages.lang_state) :
  (forall L n, Languages.language_counts st !! L = Some n -> 1 <= n) ->
  forall L n,
    Languages.language_counts
      (fold_left (fun st v => Languages.lang_file exclude_patterns v.1 st v.2) l st)
      !! L = Some n ->
    1 <= n.
Proof.
  revert st. induction l as [|v l IH]; intros st Hst; [exact Hst|].
  cbn [fold_left]. apply IH, lang_file_positive, Hst.
Qed.

Lemma lang_init_positive (L : string) (n : nat) :
  Languages.language_counts Languages.lang_init !! L = Some n -> 1 <= n.
Proof. cbn. rewrite lookup_empty. discriminate. Qed.

(** The two maps at return, label by label. *)
Lemma lang_run_exact (t : tree) (base_dir : string) (language : string) :
  let run := Languages.collect_languages_run t base_dir exclude_patterns in
  let hits :=
    List.filter (speaks exclude_patterns language)
                (visited exclude_patterns base_dir t) in
  Languages.language_counts run !! language
  = (if length hits =? 0 then None else Some (length hits))
  /\ Languages.files_by_language run !! language
     = (if length hits =? 0 then None else Some (map visit_path hits)).
Proof.
  cbn zeta. rewrite collect_languages_run_fold.
  destruct (lang_fold_label (visited exclude_patterns base_dir t)
              Languages.lang_init language) as [Hc Hf].
  cbn zeta in Hc, Hf.
  pose proof (lang_invariant_fold exclude_patterns
                (visited exclude_patterns base_dir t) Languages.lang_init
                (lang_invariant_init)) as (_ & Hlen & _).
  pose proof (lang_fold_positive (visited exclude_patterns base_dir t)
                Languages.lang_init lang_init_positive language) as Hpos.
  revert Hc Hf Hlen Hpos.
  generalize (fold_left
                (fun st v => Languages.lang_file exclude_patterns v.1 st v.2)
                (visited exclude_patterns base_dir t) Languages.lang_init).
  generalize (List.filter (speaks exclude_patterns language)
                          (visited exclude_patterns base_dir t)).
  intros hits st Hc Hf Hlen Hpos.
  unfold Languages.lang_init in Hc, Hf.
  cbn [Languages.language_counts Languages.files_by_language] in Hc, Hf.
  rewrite lookup_empty in Hc. rewrite lookup_empty in Hf. cbn in Hc, Hf.
  specialize (Hlen language).
  destruct (Languages.language_counts st !! language) as [n|] eqn:En.
  - specialize (Hpos n eq_refl). cbn in Hc. subst n.
    destruct (Languages.files_by_language st !! language) as [fs|] eqn:Ef;
      [|discriminate].
    cbn in Hf. subst fs.
    destruct (length hits) eqn:Ek; [lia|]. split; reflexivity.
  - destruct (Languages.files_by_language st !! language) as [fs|] eqn:Ef;
      [discriminate|].
    cbn in Hc. rewrite <- Hc. split; reflexivity.
Qed.

(** A count is part of the sum. *)
Lemma total_ge (counts : gmap string nat) (L : string) (n : nat) :
  counts !! L = Some n -> n <= total counts.
Proof.
  intros E. unfold total.
  rewrite (map_fold_delete_L _ _ L n counts); [lia|intros; lia|exact E].
Qed.

End MoreLanguageFacts.

(* ===================================================================== *)
(** ** Names without an extension *)
(* ===================================================================== *)

Section ExtensionFacts.
Import PyStr PosixPath Spec Listing.

Lemma rfind_from_none (i : Z) (c : ascii) (s : string) :
  contains c s = false -> rfind_from i c s = (-1)%Z.
Proof.
  revert i. induction s as [|a s IH]; intros i Hc; [reflexivity|].
  cbn [contains] in Hc. apply orb_false_iff in Hc as [Ha Hs].
  cbn [rfind_from]. rewrite IH by exact Hs. cbn. rewrite Ha. reflexivity.
Qed.

(** The last dot of some leading dots followed by a text without a dot. *)
Lemma rfind_leading_dots (k : nat) (rest : string) (i : Z) :
  contains "." rest = false -> (0 <= i)%Z ->
  rfind_from i "." (prepend (repeat "."%char (S k)) rest) = (i + Z.of_nat k)%Z.
Proof.
  intros Hr. revert i. induction k as [|k IH]; intros i Hi.
  - cbn [repeat prepend fold_right rfind_from].
    rewrite rfind_from_none by exact Hr.
    change (0 <=? -1)%Z with false. rewrite Ascii.eqb_refl. cbn [Z.of_nat]. lia.
  - change (prepend (repeat "."%char (S (S k))) rest)
      with (String "." (prepend (repeat "."%char (S k)) rest)).
    cbn [rfind_from]. rewrite IH by lia.
    destruct (0 <=? i + 1 + Z.of_nat k)%Z eqn:E; [lia|].
    apply Z.leb_gt in E. lia.
Qed.

Lemma substring_dot (m n : nat) (rest : string) :
  n < m ->
  String.substring n 1 (prepend (repeat "."%char m) rest) = ".".
Proof.
  revert n. induction m as [|m IH]; intros n Hn; [lia|].
  cbn [repeat prepend fold_right]. destruct n as [|n].
  - cbn [String.substring]. destruct (fold_right String rest (repeat "."%char m)); reflexivity.
  - cbn [String.substring]. apply IH. lia.
Qed.

Lemma contains_dots (m : nat) (rest : string) :
  contains sep rest = false ->
  contains sep (prepend (repeat "."%char m) rest) = false.
Proof.
  intros Hr. induction m as [|m IH]; [exact Hr|].
  cbn [repeat prepend fold_right contains]. fold (prepend (repeat "."%char m) rest).
  rewrite IH. reflexivity.
Qed.

(** The loop over leading dots finds nothing else. *)
Lemma splitext_loop_dots (m : nat) (rest : string) (fuel : nat) :
  forall i : Z,
    (0 <= i)%Z ->
    splitext_loop fuel (prepend (repeat "."%char (S m)) rest) i (Z.of_nat m)
    = (prepend (repeat "."%char (S m)) rest, EmptyString).
Proof.
  induction fuel as [|fuel IH]; intros i Hi; [reflexivity|].
  cbn [splitext_loop]. destruct (i <? Z.of_nat m)%Z eqn:E; [|reflexivity].
  apply Z.ltb_lt in E.
  unfold slice at 1. replace (Z.to_nat (i + 1 - i)) with 1 by lia.
  rewrite substring_dot by lia. cbn [String.eqb negb].
  rewrite Ascii.eqb_refl. cbn [negb]. apply IH. lia.
Qed.

(** A name that has no dot behind its leading dots has no extension. *)
Lemma splitext_no_extension (m : nat) (rest : string) :
  contains "." rest = false -> contains sep rest = false ->
  splitext (prepend (repeat "."%char m) rest)
  = (prepend (repeat "."%char m) rest, EmptyString).
Proof.
  intros Hd Hs. unfold splitext, rfind.
  rewrite (rfind_from_none 0 sep) by (apply contains_dots; exact Hs).
  destruct m as [|m].
  - cbn [repeat prepend fold_right]. rewrite rfind_from_none by exact Hd. reflexivity.
  - rewrite rfind_leading_dots by (try exact Hd; lia).
    destruct (-1 <? 0 + Z.of_nat m)%Z; [|reflexivity].
    replace (0 + Z.of_nat m)%Z with (Z.of_nat m) by lia.
    apply splitext_loop_dots. lia.
Qed.

End ExtensionFacts.

(* ===================================================================== *)
(** ** The ranking *)
(* ===================================================================== *)

Section RankingFacts.
Import Report.

Lemma insert_desc_perm (x : string * nat) (l : list (string * nat)) :
  Permutation (insert_desc x l) (x :: l).
Proof.
  induction l as [|y l IH]; [reflexivity|]. cbn [insert_desc].
  destruct (x.2 <? y.2); [|reflexivity].
  rewrite IH. apply perm_swap.
Qed.

Lemma sorted_desc_perm (items : list (string * nat)) :
  Permutation (sorted_desc items) items.
Proof.
  induction items as [|x l IH]; [reflexivity|].
  cbn [sorted_desc fold_right]. fold (sorted_desc l).
  rewrite insert_desc_perm, IH. reflexivity.
Qed.

Lemma insert_desc_sorted (x : string * nat) (l : list (string * nat)) :
  StronglySorted at_least l -> StronglySorted at_least (insert_desc x l).
Proof.
  induction 1 as [|y l Hl IH Hy]; cbn [insert_desc].
  - repeat constructor.
  - destruct (x.2 <? y.2) eqn:E.
    + apply Nat.ltb_lt in E. constructor; [exact IH|].
      rewrite insert_desc_perm. constructor; [unfold at_least; lia|exact Hy].
    + apply Nat.ltb_ge in E. constructor; [constructor; assumption|].
      constructor; [exact E|].
      eapply Forall_impl; [exact Hy|]. unfold at_least. intros z Hz. lia.
Qed.

Lemma sorted_desc_sorted (items : list (string * nat)) :
  StronglySorted at_least (sorted_desc items).
Proof.
  induction items as [|x l IH]; [constructor|].
  cbn [sorted_desc fold_right]. apply insert_desc_sorted, IH.
Qed.

Lemma sorted_prefix (l1 l2 : list (string * nat)) :
  StronglySorted at_least (l1 ++ l2) -> StronglySorted at_least l1.
Proof.
  induction l1 as [|a l1 IH]; intros Hs; [constructor|].
  inversion Hs as [|a' l' Hl Ha]; subst.
  constructor; [apply IH; exact Hl|].
  apply Forall_app in Ha as [Ha _]. exact Ha.
Qed.

Lemma in_skipn {A : Type} (n : nat) (l : list A) (b : A) :
  In b (skipn n l) -> In b l.
Proof.
  revert l. induction n as [|n IH]; intros l Hb; [exact Hb|].
  destruct l as [|a l]; [contradiction|]. right. apply IH. exact Hb.
Qed.

(** In a sorted list nothing behind a position outranks what is before
    it. *)
Lemma sorted_split (n : nat) (l : list (string * nat)) :
  StronglySorted at_least l ->
  forall a b, In a (firstn n l) -> In b (skipn n l) -> b.2 <= a.2.
Proof.
  intros Hl. revert n. induction Hl as [|y l Hl IH Hy]; intros n a b Ha Hb.
  - rewrite firstn_nil in Ha. contradiction.
  - destruct n as [|n]; [contradiction|].
    cbn [firstn skipn] in Ha, Hb. destruct Ha as [<-|Ha].
    + rewrite Forall_forall in Hy. apply Hy, list_elem_of_In.
      eapply in_skipn. exact Hb.
    + eapply IH; eassumption.
Qed.

(** Items of one count keep the order they come in. *)
Lemma insert_desc_ties (n : nat) (x : string * nat) (l : list (string * nat)) :
  List.filter (fun y => y.2 =? n) (insert_desc x l)
  = List.filter (fun y => y.2 =? n) (x :: l).
Proof.
  induction l as [|y l IH]; [reflexivity|]. cbn [insert_desc].
  destruct (x.2 <? y.2) eqn:E; [|reflexivity].
  apply Nat.ltb_lt in E. cbn [List.filter] in IH |- *. rewrite IH.
  destruct (Nat.eqb_spec x.2 n), (Nat.eqb_spec y.2 n); try reflexivity. lia.
Qed.

Lemma sorted_desc_ties (n : nat) (items : list (string * nat)) :
  List.filter (fun y => y.2 =? n) (sorted_desc items)
  = List.filter (fun y => y.2 =? n) items.
Proof.
  induction items as [|x l IH]; [reflexivity|].
  cbn [sorted_desc fold_right]. fold (sorted_desc l).
  rewrite insert_desc_ties. cbn [List.filter]. rewrite IH. reflexivity.
Qed.

End RankingFacts.

(* ===================================================================== *)
(** ** No file is visited twice *)
(* ===================================================================== *)

Section OnceFacts.
Import PyStr PosixPath OsWalk Spec Listing.
Context `{GlobMatcher}.
Variable exclude_patterns : list string.

Lemma unique_files_sub (subdirs : list (string * tree)) (files : list string)
    (d : string) (sub : tree) :
  unique_files (Dir subdirs files) -> In (d, sub) subdirs -> unique_files sub.
Proof.
  cbn [unique_files]. intros [_ Hall].
  induction subdirs as [|[n s] l IH]; intros Hin; [contradiction|].
  destruct Hall as [Hs Hl]. destruct Hin as [[= -> ->]|Hin]; [exact Hs|].
  apply IH; assumption.
Qed.

Lemma NoDup_pairs (top : string) (files : list string) :
  NoDup files -> NoDup (map (pair top) files).
Proof.
  induction 1 as [|f l Hf Hl IH]; [constructor|].
  cbn [map]. constructor; [|exact IH].
  intros Hin. apply Hf. apply list_elem_of_In in Hin.
  apply in_map_iff in Hin as (f' & [= ->] & Hin). apply list_elem_of_In. exact Hin.
Qed.

Lemma NoDup_list_filter {A : Type} (f : A -> bool) (l : list A) :
  NoDup l -> NoDup (List.filter f l).
Proof.
  induction 1 as [|a l Ha Hl IH]; [constructor|].
  cbn [List.filter]. destruct (f a); [|exact IH].
  constructor; [|exact IH].
  intros Hin. apply Ha. apply list_elem_of_In in Hin.
  apply filter_In in Hin as [Hin _]. apply list_elem_of_In. exact Hin.
Qed.

Lemma NoDup_flat_map {A B : Type} (g : A -> list B) (l : list A) :
  NoDup l ->
  (forall a, In a l -> NoDup (g a)) ->
  (forall a a' y, In a l -> In a' l -> In y (g a) -> In y (g a') -> a = a') ->
  NoDup (flat_map g l).
Proof.
  induction 1 as [|a l Ha Hl IH]; intros Hg Hd; [constructor|].
  cbn [flat_map]. apply NoDup_app. split; [|split].
  - apply Hg. left. reflexivity.
  - intros y Hy Hy'. apply list_elem_of_In in Hy, Hy'.
    apply in_flat_map in Hy' as (a' & Ha' & Hy').
    assert (E : a = a').
    { apply (Hd a a' y); [left; reflexivity|right; exact Ha'|exact Hy|exact Hy']. }
    rewrite <- E in Ha'. apply Ha, list_elem_of_In, Ha'.
  - apply IH.
    + intros a' Ha'. apply Hg. right. exact Ha'.
    + intros a1 a2 y H1 H2. apply Hd; right; assumption.
Qed.

(** The root a sub-directory's visits are listed under, as a way down
    from the directory above. *)
Lemma sub_visit_root (top d : string) (sub : tree) (root file : string) :
  valid_name d = true -> valid_tree sub = true ->
  In (root, file) (visited exclude_patterns (join top d) sub) ->
  exists ds, root = joins top (d :: ds) /\ forallb valid_name (d :: ds) = true.
Proof.
  intros Hd Hv Hin.
  apply visited_reached in Hin as (ds & -> & Hloc & _).
  exists ds. split; [reflexivity|].
  cbn [forallb]. rewrite Hd. apply (located_valid sub ds file); assumption.
Qed.

Lemma visited_once (t : tree) :
  forall top,
    valid_tree t = true -> unique_names t -> unique_files t ->
    NoDup (visited exclude_patterns top t).
Proof.
  induction t as [subdirs files IH] using tree_ind'. intros top Hv Hu Hf.
  rewrite visited_Dir. apply NoDup_app. split; [|split].
  - apply NoDup_pairs. apply Hf.
  - intros [root file] Hin Hin'. apply list_elem_of_In in Hin, Hin'.
    apply in_map_iff in Hin as (f & [= <- <-] & _).
    apply in_flat_map in Hin' as (d & _ & Hin').
    destruct (find_sub d subdirs) as [sub|] eqn:E; [|contradiction].
    apply find_sub_In in E.
    destruct (valid_subdir _ _ _ _ Hv E) as [Hd Hs].
    apply sub_visit_root in Hin' as (ds & Er & Hds); [|assumption|assumption].
    apply (joins_inj top [] (d :: ds)) in Er; [discriminate|reflexivity|exact Hds].
  - apply NoDup_flat_map.
    + apply NoDup_list_filter. apply Hu.
    + intros d _. destruct (find_sub d subdirs) as [sub|] eqn:E; [|constructor].
      pose proof (find_sub_Forall _ _ _ _ IH E) as Hsub. cbn [snd] in Hsub.
      apply find_sub_In in E. apply Hsub.
      * apply (valid_subdir _ _ _ _ Hv E).
      * eapply unique_names_sub; eassumption.
      * eapply unique_files_sub; eassumption.
    + intros d d' [root file] _ _ Hy Hy'.
      destruct (find_sub d subdirs) as [sub|] eqn:E; [|contradiction].
      destruct (find_sub d' subdirs) as [sub'|] eqn:E'; [|contradiction].
      apply find_sub_In in E, E'.
      destruct (valid_subdir _ _ _ _ Hv E) as [Hd Hs].
      destruct (valid_subdir _ _ _ _ Hv E') as [Hd' Hs'].
      apply sub_visit_root in Hy as (ds & Er & Hds); [|assumption|assumption].
      apply sub_visit_root in Hy' as (ds' & Er' & Hds'); [|assumption|assumption].
      rewrite Er in Er'. apply joins_inj in Er'; [|assumption|assumption].
      congruence.
Qed.

End OnceFacts.

(* ===================================================================== *)
(** ** Further properties of the code *)
(* ===================================================================== *)

Section Further.
Import PyStr PosixPath OsWalk Spec Listing Report.

(** X1: the patterns of a list act one by one: a path is excluded by two
    lists put together exactly when one of the two excludes it, so adding
    patterns never brings an excluded path back. *)
Theorem X1_patterns_compose `{GlobMatcher} (path : string)
    (P1 P2 : list string) :
  Generator.should_exclude path (P1 ++ P2)
  = Generator.should_exclude path P1 || Generator.should_exclude path P2
  /\ Languages.should_exclude path (P1 ++ P2)
     = Languages.should_exclude path P1 || Languages.should_exclude path P2.
Proof.
  change (Languages.should_exclude path (P1 ++ P2))
    with (Generator.should_exclude path (P1 ++ P2)).
  change (Languages.should_exclude path P1)
    with (Generator.should_exclude path P1).
  change (Languages.should_exclude path P2)
    with (Generator.should_exclude path P2).
  split; apply should_exclude_loop_app.
Qed.

(** X2: exclusion is inherited: when the path of a directory entry is
    excluded, so is every path made by joining names below it. *)
Theorem X2_exclusion_is_inherited `{GlobMatcher} (a d : string)
    (l : list string) (exclude_patterns : list string) :
  proper_name d = true ->
  forallb valid_name l = true ->
  Generator.should_exclude (join a d) exclude_patterns = true ->
  Generator.should_exclude (joins (join a d) l) exclude_patterns = true.
Proof.
  intros Hd Hl Hex. rewrite should_exclude_entry in Hex by exact Hd.
  apply segments_exclude. apply (segments_joins (join a d) l); assumption.
Qed.

Lemma X2_exclusion_is_inherited_witness :
  proper_name "node_modules" = true
  /\ forallb valid_name ["pkg"; "lib.js"] = true
  /\ Generator.should_exclude (join "base" "node_modules") ["node_modules"]
     = true
  /\ Generator.should_exclude "base/node_modules/pkg/lib.js" ["node_modules"]
     = true.
Proof.
  split; [reflexivity|]. split; [reflexivity|]. split; [reflexivity|].
  exact (@X2_exclusion_is_inherited posix_fnmatch "base" "node_modules"
           ["pkg"; "lib.js"] ["node_modules"] eq_refl eq_refl eq_refl).
Defined.

(** X3: the walk leaves nothing out but what it prunes: a file listed in
    the tree is visited when no directory on the way down to it is
    excluded. *)
Theorem X3_unexcluded_files_are_visited `{GlobMatcher}
    (exclude_patterns : list string) (base_dir : string) (t : tree)
    (ds : list string) (file : string) :
  unique_names t ->
  located t ds file ->
  existsb (fun a => Generator.should_exclude a exclude_patterns)
          (ancestors base_dir ds) = false ->
  In (joins base_dir ds, file) (visited exclude_patterns base_dir t).
Proof. intros Hu Hloc Hex. apply not_excluded_visited; assumption. Qed.

Lemma X3_unexcluded_files_are_visited_witness :
  let t := Dir [("node_modules", Dir [] ["lib.js"]); ("src", Dir [] ["c.py"])]
               ["a.py"] in
  unique_names t
  /\ located t ["src"] "c.py"
  /\ existsb (fun a => Generator.should_exclude a ["node_modules"])
             (ancestors "base" ["src"]) = false
  /\ In ("base/src", "c.py") (visited ["node_modules"] "base" t).
Proof.
  intros t.
  assert (Hu : unique_names t).
  { cbn. repeat split; try apply NoDup_nil_2.
    apply NoDup_cons. split; [|apply NoDup_singleton].
    intros Hin. apply list_elem_of_In in Hin. destruct Hin as [Hin|[]].
    discriminate. }
  assert (Hloc : located t ["src"] "c.py").
  { eapply located_below; [right; left; reflexivity|].
    apply located_here. left. reflexivity. }
  split; [exact Hu|]. split; [exact Hloc|]. split; [reflexivity|].
  exact (@X3_unexcluded_files_are_visited posix_fnmatch ["node_modules"] "base"
           t ["src"] "c.py" Hu Hloc eq_refl).
Defined.

(** X4: in both pipelines the skipped counter ends as the number of
    visited files whose path is excluded; the two pipelines report the
    same number. *)
Theorem X4_skipped_counts_excluded_visits `{GlobMatcher}
    (read_text : string -> outcome string) (exclude_patterns : list string)
    (t : tree) (base_dir : string) :
  Generator.files_skipped
    (Generator.collect_words_run read_text t base_dir exclude_patterns)
  = length (List.filter (skipped_visit exclude_patterns)
                        (visited exclude_patterns base_dir t))
  /\ Languages.files_skipped
       (Languages.collect_languages_run t base_dir exclude_patterns)
     = length (List.filter (skipped_visit exclude_patterns)
                           (visited exclude_patterns base_dir t)).
Proof.
  split.
  - rewrite collect_words_run_fold, words_skipped_fold. reflexivity.
  - rewrite collect_languages_run_fold, lang_skipped_fold. reflexivity.
Qed.

(** X5: in the word pipeline every visited file that is not excluded and
    is a text file by its name is either processed or warned about: the
    processed counter and the number of warnings add up to the number of
    these files. *)
Theorem X5_candidates_processed_or_warned `{GlobMatcher}
    (read_text : string -> outcome string) (exclude_patterns : list string)
    (t : tree) (base_dir : string) :
  let run :=
    Generator.collect_words_run read_text t base_dir exclude_patterns in
  Generator.files_processed run + length (Generator.stderr run)
  = length (List.filter (candidate exclude_patterns)
                        (visited exclude_patterns base_dir t)).
Proof.
  cbn zeta. rewrite collect_words_run_fold.
  apply (words_processed_fold exclude_patterns read_text _ Generator.words_init).
Qed.

(** X6: every word [collect_words] returns is made of lowercase ASCII
    letters only and has at least two of them. *)
Theorem X6_words_are_lowercase `{GlobMatcher}
    (read_text : string -> outcome string) (exclude_patterns : list string)
    (t : tree) (base_dir : string) (w : string) :
  In w (Generator.collect_words read_text t base_dir exclude_patterns) ->
  all_chars is_lowercase_letter w = true /\ 2 <= String.length w.
Proof.
  unfold Generator.collect_words. rewrite collect_words_run_fold.
  rewrite (proj1 (fold_words read_text exclude_patterns _ Generator.words_init)).
  cbn [Generator.words Generator.words_init app].
  intros Hw. apply in_flat_map in Hw as (v & _ & Hw).
  unfold contribution in Hw.
  destruct (Generator.should_exclude _ _); [contradiction|].
  destruct (Generator.is_text_file v.2); [|contradiction].
  destruct (read_text _) as [content|e]; [|contradiction].
  eapply file_words_lowercase. exact Hw.
Qed.

Lemma X6_words_are_lowercase_witness :
  In "foo" (Generator.collect_words (fun _ => Returned "Def FOO(): x")
                                    (Dir [] ["a.py"]) "base" [])
  /\ all_chars is_lowercase_letter "foo" = true /\ 2 <= String.length "foo".
Proof.
  assert (Hin : In "foo" (Generator.collect_words
                            (fun _ => Returned "Def FOO(): x")
                            (Dir [] ["a.py"]) "base" []))
    by (right; left; reflexivity).
  split; [exact Hin|].
  exact (@X6_words_are_lowercase posix_fnmatch _ _ _ _ _ Hin).
Defined.

(** X7: [Counter(words)] maps every word that occurs to the number of its
    occurrences and holds no other key, and its counts add up to the
    number of words. *)
Theorem X7_counter_counts_occurrences (words : list string) (word : string) :
  Generator.Counter words !! word
  = (if occurrences word words =? 0 then None
     else Some (occurrences word words))
  /\ total (Generator.Counter words) = length words.
Proof. split; [apply counter_lookup | apply counter_total]. Qed.

(** X8: filtering the stopwords twice is filtering them once. *)
Theorem X8_filter_is_idempotent {A : Type} (lib : Generator.nltk)
    (word_counts : gmap string A) :
  Generator.filter_stopwords lib (Generator.filter_stopwords lib word_counts)
  = Generator.filter_stopwords lib word_counts.
Proof. apply filter_stopwords_idempotent. Qed.

(** X9: when NLTK cannot be imported, or the corpus is still missing
    after the download, the filter returns the table as it is. *)
Theorem X9_filter_degrades_to_identity {A : Type}
    (word_counts : gmap string A) :
  Generator.filter_stopwords Generator.ImportFails word_counts = word_counts
  /\ Generator.filter_stopwords (Generator.LookupFails None) word_counts
     = word_counts.
Proof. split; apply filter_stopwords_degraded; reflexivity. Qed.

(** X10: every pattern the loader returns is a stripped line: it is not
    empty, does not start with [#], and has no whitespace around it. *)
Theorem X10_patterns_are_clean (f : exclude_file) (patterns : list string)
    (p : string) :
  Generator.load_exclude_patterns f = Returned patterns ->
  In p patterns ->
  p <> EmptyString /\ startswith p "#" = false /\ strip p = p.
Proof.
  destruct f as [|e|content]; cbn [Generator.load_exclude_patterns].
  - intros [= <-] [].
  - discriminate.
  - fold (Generator.load_exclude_patterns (Text content)).
    rewrite load_exclude_patterns_text. intros [= <-].
    apply pattern_lines_clean.
Qed.

Lemma X10_patterns_are_clean_witness :
  Generator.load_exclude_patterns (Text "  *.pyc   ") = Returned ["*.pyc"]
  /\ In "*.pyc" ["*.pyc"]
  /\ strip "*.pyc" = "*.pyc".
Proof.
  assert (H1 : Generator.load_exclude_patterns (Text "  *.pyc   ")
               = Returned ["*.pyc"]) by reflexivity.
  assert (H2 : In "*.pyc" ["*.pyc"]) by (left; reflexivity).
  split; [exact H1|]. split; [exact H2|].
  exact (proj2 (proj2 (X10_patterns_are_clean _ _ _ H1 H2))).
Defined.

End Further.

Section FurtherLanguages.
Import PyStr PosixPath OsWalk Spec Listing Report.

(** X11: at return the count of a label is the number of visited files
    that are not excluded and whose lowercased extension is mapped to it,
    and the paths recorded under the label are the paths of these files in
    the order of the visit; a label with no such file is in neither
    map. *)
Theorem X11_language_counts_exact `{GlobMatcher}
    (exclude_patterns : list string) (t : tree) (base_dir : string)
    (language : string) :
  let run := Languages.collect_languages_run t base_dir exclude_patterns in
  let hits :=
    List.filter (speaks exclude_patterns language)
                (visited exclude_patterns base_dir t) in
  Languages.language_counts run !! language
  = (if length hits =? 0 then None else Some (length hits))
  /\ Languages.files_by_language run !! language
     = (if length hits =? 0 then None else Some (map visit_path hits)).
Proof. apply lang_run_exact. Qed.

(** X12: every count [collect_languages] returns is at least one and at
    most the number of processed files, which is the sum of all counts,
    and its label is a value of [LANGUAGE_MAP]; so the sum the percentages
    of [main] are taken of is not zero when there is a label to report. *)
Theorem X12_counts_positive_and_bounded `{GlobMatcher}
    (exclude_patterns : list string) (t : tree) (base_dir : string)
    (language : string) (n : nat) :
  Languages.language_counts
    (Languages.collect_languages_run t base_dir exclude_patterns)
    !! language = Some n ->
  1 <= n
  /\ n <= total (Languages.language_counts
                   (Languages.collect_languages_run t base_dir exclude_patterns))
  /\ exists ext, Languages.LANGUAGE_MAP !! ext = Some language.
Proof.
  intros En. pose proof (total_ge _ _ _ En) as Hle.
  rewrite (proj1 (lang_run_exact exclude_patterns t base_dir language)) in En.
  cbn zeta in En.
  destruct (List.filter (speaks exclude_patterns language)
                        (visited exclude_patterns base_dir t))
    as [|v hits] eqn:Eh; [discriminate|].
  cbn [length Nat.eqb] in En. injection En as <-.
  split; [lia|]. split; [exact Hle|].
  assert (Hv : In v (List.filter (speaks exclude_patterns language)
                                 (visited exclude_patterns base_dir t)))
    by (rewrite Eh; left; reflexivity).
  apply filter_In in Hv as [_ Hv]. unfold speaks in Hv.
  apply andb_true_iff in Hv as [_ Hv]. apply bool_decide_eq_true in Hv.
  eauto.
Qed.

Lemma X12_counts_positive_and_bounded_witness :
  Languages.language_counts
    (Languages.collect_languages_run (Dir [] ["x.go"; "y.rs"; "z.go"])
                                     "base" [])
    !! "Go" = Some 2
  /\ 1 <= 2
  /\ exists ext, Languages.LANGUAGE_MAP !! ext = Some "Go".
Proof.
  assert (E : Languages.language_counts
                (Languages.collect_languages_run
                   (Dir [] ["x.go"; "y.rs"; "z.go"]) "base" [])
                !! "Go" = Some 2) by (vm_compute; reflexivity).
  destruct (@X12_counts_positive_and_bounded posix_fnmatch _ _ _ _ _ E)
    as (H1 & _ & H3).
  split; [exact E|]. split; [exact H1|exact H3].
Defined.

(** X13: a file whose name has no dot behind its leading dots ([Makefile],
    [Dockerfile], [.gitignore]) has no extension for [os.path.splitext]:
    unless it is excluded, the language pipeline leaves its state as it
    is, so such a file is never counted. *)
Theorem X13_names_without_extension_not_counted `{GlobMatcher}
    (exclude_patterns : list string) (root : string)
    (st : Languages.lang_state) (dots : nat) (rest : string) :
  let file := prepend (repeat "."%char dots) rest in
  contains "." rest = false ->
  contains sep rest = false ->
  Generator.should_exclude (join root file) exclude_patterns = false ->
  splitext file = (file, EmptyString)
  /\ Languages.lang_file exclude_patterns root st file = st.
Proof.
  cbn zeta. intros Hd Hs Hex.
  pose proof (splitext_no_extension dots rest Hd Hs) as E.
  split; [exact E|].
  apply lang_file_unknown; [exact Hex|]. rewrite E. reflexivity.
Qed.

Lemma X13_names_without_extension_not_counted_witness :
  contains "." "gitignore" = false
  /\ contains sep "gitignore" = false
  /\ Generator.should_exclude (join "base" ".gitignore") ["node_modules"]
     = false
  /\ Languages.lang_file ["node_modules"] "base" Languages.lang_init
                         ".gitignore"
     = Languages.lang_init.
Proof.
  split; [reflexivity|]. split; [reflexivity|]. split; [reflexivity|].
  exact (proj2 (@X13_names_without_extension_not_counted posix_fnmatch
                  ["node_modules"] "base" Languages.lang_init 1 "gitignore"
                  eq_refl eq_refl eq_refl)).
Defined.

(** X14: the ranking [main] prints lists at most 50 entries of the table,
    in descending order of count; nothing it leaves out has a higher
    count than an entry it lists, and the listed and the left-out entries
    together are the entries of the table. *)
Theorem X14_top_words_ranking (items : list (string * nat)) :
  length (top_words items) = Nat.min 50 (length items)
  /\ StronglySorted at_least (top_words items)
  /\ (forall a b,
        In a (top_words items) -> In b (skipn 50 (sorted_desc items)) ->
        b.2 <= a.2)
  /\ Permutation (top_words items ++ skipn 50 (sorted_desc items)) items.
Proof.
  unfold top_words. repeat split.
  - rewrite length_firstn, (Permutation_length (sorted_desc_perm items)).
    reflexivity.
  - pose proof (sorted_desc_sorted items) as Hs.
    rewrite <- (firstn_skipn 50 (sorted_desc items)) in Hs.
    apply sorted_prefix in Hs. exact Hs.
  - apply sorted_split, sorted_desc_sorted.
  - rewrite firstn_skipn. apply sorted_desc_perm.
Qed.

(** X15: entries of equal count are ranked in the order the table gives
    them, in the word ranking and in the language ranking: the sort is
    stable. *)
Theorem X15_ranking_ties_keep_order (n : nat) (items : list (string * nat)) :
  List.filter (fun y => y.2 =? n) (sorted_desc items)
  = List.filter (fun y => y.2 =? n) items
  /\ List.filter (fun y => y.2 =? n) (ranked_languages items)
     = List.filter (fun y => y.2 =? n) items
  /\ StronglySorted at_least (ranked_languages items)
  /\ Permutation (ranked_languages items) items.
Proof.
  unfold ranked_languages. repeat split.
  - apply sorted_desc_ties.
  - apply sorted_desc_ties.
  - apply sorted_desc_sorted.
  - apply sorted_desc_perm.
Qed.

(** X16: for the paths the two loops test, a directory joined with the
    name of one of its entries, the check of the base name never decides:
    the path is excluded exactly when one of its segments matches a
    pattern. *)
Theorem X16_entry_paths_by_segments `{GlobMatcher} (root name : string)
    (exclude_patterns : list string) :
  proper_name name = true ->
  basename (join root name) = name
  /\ Generator.should_exclude (join root name) exclude_patterns
     = some_segment_matches (join root name) exclude_patterns.
Proof.
  intros Hn. split.
  - apply basename_join, proper_name_valid, Hn.
  - apply should_exclude_entry, Hn.
Qed.

Lemma X16_entry_paths_by_segments_witness :
  proper_name "lib.js" = true
  /\ Generator.should_exclude (join "base/src" "lib.js") ["*.js"]
     = some_segment_matches (join "base/src" "lib.js") ["*.js"].
Proof.
  split; [reflexivity|].
  exact (proj2 (@X16_entry_paths_by_segments posix_fnmatch "base/src" "lib.js"
                  ["*.js"] eq_refl)).
Defined.

End FurtherLanguages.

Section FurtherWalk.
Import PyStr PosixPath OsWalk Spec Listing Report.

(** X17: no file is visited twice, in a tree whose listings hold valid
    names and no name twice; so no file is counted twice by either
    pipeline. *)
Theorem X17_no_file_visited_twice `{GlobMatcher}
    (exclude_patterns : list string) (base_dir : string) (t : tree) :
  valid_tree t = true -> unique_names t -> unique_files t ->
  NoDup (visited exclude_patterns base_dir t).
Proof. intros Hv Hu Hf. apply visited_once; assumption. Qed.

Lemma X17_no_file_visited_twice_witness :
  let t := Dir [("src", Dir [] ["a.py"])] ["a.py"] in
  valid_tree t = true /\ unique_names t /\ unique_files t
  /\ NoDup (visited [] "base" t).
Proof.
  intros t.
  assert (Hu : unique_names t).
  { cbn. repeat split; try apply NoDup_nil_2. apply NoDup_singleton. }
  assert (Hf : unique_files t).
  { cbn. repeat split; apply NoDup_singleton. }
  split; [reflexivity|]. split; [exact Hu|]. split; [exact Hf|].
  exact (@X17_no_file_visited_twice posix_fnmatch [] "base" t eq_refl Hu Hf).
Defined.

(** X18: pruning loses nothing: a file anywhere below an excluded
    directory entry has an excluded path, so a turn of either loop on it
    would only add one to the skipped counter, whatever its extension and
    whether or not it can be read. *)
Theorem X18_files_below_excluded_are_skipped `{GlobMatcher}
    (read_text : string -> outcome string) (exclude_patterns : list string)
    (a d : string) (l : list string) (file : string)
    (st : Generator.words_state) (lst : Languages.lang_state) :
  proper_name d = true ->
  forallb valid_name l = true ->
  valid_name file = true ->
  Generator.should_exclude (join a d) exclude_patterns = true ->
  let root := joins (join a d) l in
  Generator.words_file read_text exclude_patterns root st file
  = Generator.WordsState (Generator.words st) (Generator.files_processed st)
                         (Generator.files_skipped st + 1) (Generator.stderr st)
  /\ Languages.lang_file exclude_patterns root lst file
     = Languages.LangState (Languages.language_counts lst)
                           (Languages.files_by_language lst)
                           (Languages.files_processed lst)
                           (Languages.files_skipped lst + 1).
Proof.
  intros Hd Hl Hf Hex root.
  assert (Hfile : Generator.should_exclude (join root file) exclude_patterns
                  = true).
  { rewrite should_exclude_entry in Hex by exact Hd.
    apply segments_exclude.
    change (join root file) with (joins (joins (join a d) l) [file]).
    apply segments_joins; [cbn; rewrite Hf; reflexivity|].
    apply segments_joins; assumption. }
  split.
  - unfold Generator.words_file. rewrite Hfile. reflexivity.
  - apply lang_file_excluded. exact Hfile.
Qed.

Lemma X18_files_below_excluded_are_skipped_witness :
  proper_name "node_modules" = true
  /\ forallb valid_name ["pkg"] = true
  /\ valid_name "lib.js" = true
  /\ Generator.should_exclude (join "base" "node_modules") ["node_modules"]
     = true
  /\ Generator.words_file (fun _ => Returned "zz top") ["node_modules"]
                          "base/node_modules/pkg" Generator.words_init "lib.js"
     = Generator.WordsState [] 0 1 [].
Proof.
  split; [reflexivity|]. split; [reflexivity|]. split; [reflexivity|].
  split; [reflexivity|].
  exact (proj1 (@X18_files_below_excluded_are_skipped posix_fnmatch
                  (fun _ => Returned "zz top") ["node_modules"] "base"
                  "node_modules" ["pkg"] "lib.js" Generator.words_init
                  Languages.lang_init eq_refl eq_refl eq_refl eq_refl)).
Defined.

(** X19: with the empty pattern list, which is what a missing exclusion
    file gives, every file listed in the tree is visited and neither
    pipeline skips anything. *)
Theorem X19_no_patterns_nothing_skipped `{GlobMatcher}
    (read_text : string -> outcome string) (base_dir : string) (t : tree)
    (ds : list string) (file : string) :
  unique_names t ->
  located t ds file ->
  In (joins base_dir ds, file) (visited [] base_dir t)
  /\ Generator.load_exclude_patterns Missing = Returned []
  /\ Generator.files_skipped
       (Generator.collect_words_run read_text t base_dir []) = 0
  /\ Languages.files_skipped (Languages.collect_languages_run t base_dir [])
     = 0.
Proof.
  intros Hu Hloc.
  assert (Hnone : forall l : list (string * string),
             length (List.filter (skipped_visit []) l) = 0).
  { induction l as [|v l IH]; [reflexivity|exact IH]. }
  repeat split.
  - apply not_excluded_visited; [exact Hloc|exact Hu|].
    induction (ancestors base_dir ds) as [|a l IH]; [reflexivity|exact IH].
  - rewrite collect_words_run_fold, words_skipped_fold, Hnone. reflexivity.
  - rewrite collect_languages_run_fold, lang_skipped_fold, Hnone. reflexivity.
Qed.

Lemma X19_no_patterns_nothing_skipped_witness :
  let t := Dir [("node_modules", Dir [] ["lib.js"])] ["a.py"] in
  unique_names t
  /\ located t ["node_modules"] "lib.js"
  /\ In ("base/node_modules", "lib.js") (visited [] "base" t).
Proof.
  intros t.
  assert (Hu : unique_names t).
  { cbn. repeat split; try apply NoDup_nil_2. apply NoDup_singleton. }
  assert (Hloc : located t ["node_modules"] "lib.js").
  { eapply located_below; [left; reflexivity|].
    apply located_here. left. reflexivity. }
  split; [exact Hu|]. split; [exact Hloc|].
  exact (proj1 (@X19_no_patterns_nothing_skipped posix_fnmatch
                  (fun _ => Returned "") "base" t ["node_modules"] "lib.js"
                  Hu Hloc)).
Defined.

End FurtherWalk.

(* ===================================================================== *)
(** ** Lines and stripping, on their own terms *)
(* ===================================================================== *)

Section LineFacts.
Import PyStr Spec Lines.

Lemma file_lines_cons_other (c : ascii) (s : string) :
  Ascii.eqb c LF = false -> Ascii.eqb c CR = false ->
  file_lines (String c s)
  = match file_lines s with
    | line :: lines => String c line :: lines
    | [] => [String c EmptyString]
    end.
Proof. intros Hl Hc. cbn [file_lines]. fold LF CR. rewrite Hl, Hc. reflexivity. Qed.

Lemma last_is_cons (p : ascii -> bool) (c : ascii) (l : string) :
  l <> EmptyString -> last_is p (String c l) = last_is p l.
Proof. destruct l; [contradiction|reflexivity]. Qed.

(** What the line iteration gives, for the texts up to a length. *)
Lemma file_lines_cut_upto (n : nat) :
  forall s, String.length s <= n ->
    concat_lines (file_lines s) = universal_newlines s
    /\ cut_at_line_feeds (file_lines s) = true.
Proof.
  induction n as [|n IH]; intros s Hn.
  { destruct s; [split; reflexivity|simpl in Hn; lia]. }
  destruct s as [|c s]; [split; reflexivity|]. simpl in Hn.
  assert (Hline : forall rest,
             concat_lines (file_lines rest) = universal_newlines rest
             /\ cut_at_line_feeds (file_lines rest) = true ->
             concat_lines (String LF EmptyString :: file_lines rest)
             = String LF (universal_newlines rest)
             /\ cut_at_line_feeds (String LF EmptyString :: file_lines rest)
                = true).
  { intros rest [Hc Hw]. split.
    - cbn [concat_lines fold_right]. fold (concat_lines (file_lines rest)).
      rewrite Hc. reflexivity.
    - cbn [cut_at_line_feeds]. rewrite Hw.
      destruct (file_lines rest); reflexivity. }
  destruct (Ascii.eqb c LF) eqn:El.
  { apply Ascii.eqb_eq in El as ->.
    change (file_lines (String LF s)) with (String LF EmptyString :: file_lines s).
    change (universal_newlines (String LF s)) with (String LF (universal_newlines s)).
    apply Hline, IH. lia. }
  destruct (Ascii.eqb c CR) eqn:Ec.
  { apply Ascii.eqb_eq in Ec as ->.
    destruct s as [|c' s'].
    - split; reflexivity.
    - destruct (Ascii.eqb c' LF) eqn:El'.
      + apply Ascii.eqb_eq in El' as ->.
        change (file_lines (String CR (String LF s')))
          with (String LF EmptyString :: file_lines s').
        change (universal_newlines (String CR (String LF s')))
          with (String LF (universal_newlines s')).
        apply Hline, IH. simpl in Hn. lia.
      + replace (file_lines (String CR (String c' s')))
          with (String LF EmptyString :: file_lines (String c' s'))
          by (cbn [file_lines]; fold LF CR; rewrite El'; reflexivity).
        replace (universal_newlines (String CR (String c' s')))
          with (String LF (universal_newlines (String c' s')))
          by (cbn [universal_newlines]; rewrite El'; reflexivity).
        apply Hline, IH. simpl in Hn |- *. lia. }
  rewrite file_lines_cons_other by assumption.
  replace (universal_newlines (String c s)) with (String c (universal_newlines s))
    by (cbn [universal_newlines]; rewrite Ec; reflexivity).
  destruct (IH s ltac:(lia)) as [Hc Hw].
  destruct (file_lines s) as [|line lines] eqn:E.
  - cbn [concat_lines fold_right] in Hc. rewrite <- Hc. split; [reflexivity|].
    cbn [cut_at_line_feeds one_line]. rewrite Ec, El. reflexivity.
  - cbn [concat_lines fold_right] in Hc |- *. rewrite <- Hc. split; [reflexivity|].
    cbn [cut_at_line_feeds] in Hw |- *.
    apply andb_true_iff in Hw as [Hw Hrest].
    apply andb_true_iff in Hw as [Hw Hlast].
    apply andb_true_iff in Hw as [Hne Hone].
    cbn [String.eqb negb andb]. cbn [one_line]. rewrite Ec, El, Hone, Hrest.
    cbn [negb orb andb]. rewrite andb_true_r.
    destruct lines; [reflexivity|].
    rewrite last_is_cons; [exact Hlast|].
    intros ->. discriminate.
Qed.

(** The line iteration cuts the text, read with universal newlines, at its
    line feeds. *)
Lemma file_lines_cut (s : string) :
  concat_lines (file_lines s) = universal_newlines s
  /\ cut_at_line_feeds (file_lines s) = true.
Proof. apply (file_lines_cut_upto (String.length s)). lia. Qed.

Lemma lstrip_before (x : string) :
  exists before, x = before +:+ lstrip x /\ all_chars isspace before = true.
Proof.
  induction x as [|c x (before & E & Hb)]; [exists EmptyString; auto|].
  cbn [lstrip]. destruct (isspace c) eqn:Ec.
  - exists (String c before). rewrite app_cons, <- E. cbn [all_chars].
    rewrite Ec, Hb. auto.
  - exists EmptyString. auto.
Qed.

Lemma rstrip_after (s : string) :
  exists after,
    s = rstrip s +:+ after /\ all_chars isspace after = true
    /\ last_is isspace (rstrip s) = false.
Proof.
  induction s as [|c s (after & E & Ha & Hl)]; [exists EmptyString; auto|].
  rewrite rstrip_cons. destruct (rstrip s) as [|d r] eqn:Er.
  - rewrite app_empty_l in E. subst after. destruct (isspace c) eqn:Ec.
    + exists (String c s). rewrite app_empty_l. cbn [all_chars].
      rewrite Ec, Ha. auto.
    + exists s. rewrite app_cons, app_empty_l. cbn [last_is]. auto.
  - exists after. rewrite app_cons, <- E. repeat split; [exact Ha|].
    rewrite last_is_cons by discriminate. exact Hl.
Qed.

Lemma last_is_lstrip (p : ascii -> bool) (x : string) :
  last_is p x = false -> last_is p (lstrip x) = false.
Proof.
  induction x as [|c x IH]; [auto|]. cbn [lstrip].
  destruct (isspace c); [|auto].
  destruct x as [|d x]; [reflexivity|].
  rewrite last_is_cons by discriminate. exact IH.
Qed.

(** [strip] takes off the whitespace around a text, all of it and nothing
    else. *)
Lemma strip_stripped (s : string) : stripped_of s (strip s).
Proof.
  unfold stripped_of, strip.
  destruct (rstrip_after s) as (after & Es & Ha & Hl).
  destruct (lstrip_before (rstrip s)) as (before & Er & Hb).
  exists before, after. repeat split.
  - rewrite <- app_assoc_str, <- Er. exact Es.
  - exact Hb.
  - exact Ha.
  - apply lstrip_head.
  - apply last_is_lstrip, Hl.
Qed.

End LineFacts.

(* ===================================================================== *)
(** ** The cut into lines and the stripped text are the only ones *)
(* ===================================================================== *)

Section OnlyOneFacts.
Import PyStr Spec Lines.

Lemma lstrip_app_space (a x : string) :
  all_chars isspace a = true -> lstrip (a +:+ x) = lstrip x.
Proof.
  induction a as [|c a IH]; intros Ha; [apply f_equal, app_empty_l|].
  cbn [all_chars] in Ha. apply andb_true_iff in Ha as [Hc Ha].
  rewrite app_cons. cbn [lstrip]. rewrite Hc. apply IH, Ha.
Qed.

Lemma rstrip_space (b : string) :
  all_chars isspace b = true -> rstrip b = EmptyString.
Proof.
  induction b as [|c b IH]; intros Hb; [reflexivity|].
  cbn [all_chars] in Hb. apply andb_true_iff in Hb as [Hc Hb].
  rewrite rstrip_cons, IH, Hc by exact Hb. reflexivity.
Qed.

Lemma rstrip_app_space (x b : string) :
  all_chars isspace b = true -> rstrip (x +:+ b) = rstrip x.
Proof.
  intros Hb. induction x as [|c x IH].
  - rewrite app_empty_l. apply rstrip_space, Hb.
  - rewrite app_cons, !rstrip_cons, IH. reflexivity.
Qed.

Lemma rstrip_id (x : string) : last_is isspace x = false -> rstrip x = x.
Proof.
  induction x as [|c x IH]; [reflexivity|]. intros Hl. rewrite rstrip_cons.
  destruct x as [|d x].
  - cbn [last_is] in Hl. cbn [rstrip]. rewrite Hl. reflexivity.
  - rewrite last_is_cons in Hl by discriminate. rewrite IH by exact Hl.
    reflexivity.
Qed.

Lemma last_is_app (p : ascii -> bool) (a m : string) :
  m <> EmptyString -> last_is p (a +:+ m) = last_is p m.
Proof.
  intros Hm. induction a as [|c a IH]; [apply f_equal, app_empty_l|].
  rewrite app_cons, last_is_cons; [exact IH|].
  destruct a; [rewrite app_empty_l; exact Hm|rewrite app_cons; discriminate].
Qed.

(** Only [strip s] is [s] without the whitespace around it. *)
Lemma stripped_of_strip (s middle : string) :
  stripped_of s middle -> middle = strip s.
Proof.
  intros (before & after & -> & Hb & Ha & Hh & Hl). unfold strip.
  rewrite <- app_assoc_str, rstrip_app_space by exact Ha.
  destruct middle as [|c m].
  - replace (before +:+ EmptyString) with before
      by (clear; induction before as [|c b IH];
          [reflexivity|rewrite app_cons, <- IH; reflexivity]).
    rewrite rstrip_space by exact Hb. reflexivity.
  - rewrite rstrip_id by (rewrite last_is_app by discriminate; exact Hl).
    rewrite lstrip_app_space by exact Hb. symmetry. apply lstrip_id, Hh.
Qed.

Lemma kept_is_pattern_line (line : string) : is_pattern_line line = kept line.
Proof.
  destruct line as [|c line]; [reflexivity|].
  unfold is_pattern_line. cbn [String.eqb startswith kept negb andb].
  destruct line; rewrite andb_true_r, Ascii.eqb_sym; reflexivity.
Qed.

(** One line in front of lines already cut. *)
Lemma file_lines_line (l : string) (rest : list string) :
  l <> EmptyString -> one_line l = true ->
  (rest <> [] -> last_is (Ascii.eqb LF) l = true) ->
  file_lines (concat_lines rest) = rest ->
  file_lines (l +:+ concat_lines rest) = l :: rest.
Proof.
  intros Hne Hone Hlast Hrest.
  induction l as [|c l IH]; [contradiction|]. rewrite app_cons.
  cbn [one_line] in Hone. apply andb_true_iff in Hone as [Hc Hone].
  apply andb_true_iff in Hc as [Hcr Hlf]. apply negb_true_iff in Hcr.
  destruct (Ascii.eqb c LF) eqn:El.
  - apply Ascii.eqb_eq in El as ->. cbn [negb orb] in Hlf.
    apply String.eqb_eq in Hlf as ->. rewrite app_empty_l.
    change (file_lines (String LF (concat_lines rest)))
      with (String LF EmptyString :: file_lines (concat_lines rest)).
    rewrite Hrest. reflexivity.
  - rewrite file_lines_cons_other by assumption.
    destruct l as [|d l].
    + rewrite app_empty_l. destruct rest as [|r rest].
      * reflexivity.
      * specialize (Hlast ltac:(discriminate)). cbn [last_is] in Hlast.
        rewrite Ascii.eqb_sym in Hlast. congruence.
    + rewrite IH; [reflexivity|discriminate|exact Hone|].
      intros Hr. rewrite <- (Hlast Hr). symmetry. apply last_is_cons.
      discriminate.
Qed.

(** Lines that cut a text at its line feeds are the lines of that text. *)
Lemma file_lines_concat (lines : list string) :
  cut_at_line_feeds lines = true -> file_lines (concat_lines lines) = lines.
Proof.
  induction lines as [|l lines IH]; [reflexivity|]. cbn [cut_at_line_feeds].
  intros H. apply andb_true_iff in H as [H Hrest].
  apply andb_true_iff in H as [H Hlast].
  apply andb_true_iff in H as [Hne Hone].
  cbn [concat_lines fold_right]. fold (concat_lines lines).
  apply file_lines_line.
  - intros ->. discriminate.
  - exact Hone.
  - intros Hr. destruct lines; [contradiction|exact Hlast].
  - apply IH, Hrest.
Qed.

(** A text is cut at its line feeds in one way only. *)
Lemma cut_at_line_feeds_unique (lines lines' : list string) :
  cut_at_line_feeds lines = true -> cut_at_line_feeds lines' = true ->
  concat_lines lines = concat_lines lines' -> lines = lines'.
Proof.
  intros H H' E. rewrite <- (file_lines_concat lines H), E.
  apply file_lines_concat, H'.
Qed.

Lemma map_strip_stripped (lines : list string) :
  Forall2 stripped_of lines (map strip lines).
Proof.
  induction lines as [|l lines IH]; constructor; [apply strip_stripped|exact IH].
Qed.

Lemma stripped_lines_strip (lines stripped : list string) :
  Forall2 stripped_of lines stripped -> stripped = map strip lines.
Proof.
  induction 1 as [|l m lines stripped Hm _ IH]; [reflexivity|].
  cbn [map]. rewrite <- IH, <- (stripped_of_strip l m Hm). reflexivity.
Qed.

(** The patterns of a readable file, without a word of how the lines are
    read or stripped. *)
Lemma load_exclude_patterns_lines (content : string) :
  exists lines stripped,
    concat_lines lines = universal_newlines content
    /\ cut_at_line_feeds lines = true
    /\ Forall2 stripped_of lines stripped
    /\ Generator.load_exclude_patterns (Text content)
       = Returned (List.filter kept stripped).
Proof.
  exists (file_lines content), (map strip (file_lines content)).
  destruct (file_lines_cut content) as [Hc Hw].
  split; [exact Hc|]. split; [exact Hw|].
  split; [apply map_strip_stripped|].
  rewrite load_exclude_patterns_text. unfold pattern_lines. f_equal.
  apply filter_ext. exact kept_is_pattern_line.
Qed.

End OnlyOneFacts.

(* ===================================================================== *)
(** ** Words away from digits and underscores *)
(* ===================================================================== *)

Section LetterFacts.
Import PyStr Spec.

(** What the pattern finds: the whole words of the lowercased content. *)
Lemma file_words_whole_words (content : string) :
  Generator.file_words content = whole_words content.
Proof. apply findall_whole_words. Qed.

Lemma runs_from_same (p q : ascii -> bool) (s : string) :
  forall cur,
    all_chars (fun c => Bool.eqb (p c) (q c)) s = true ->
    runs_from p cur s = runs_from q cur s.
Proof.
  induction s as [|c s IH]; intros cur Hs; [reflexivity|].
  cbn [all_chars] in Hs. apply andb_true_iff in Hs as [Hc Hs].
  apply Bool.eqb_prop in Hc. cbn [runs_from]. rewrite Hc.
  destruct (q c); rewrite IH by exact Hs; reflexivity.
Qed.

Lemma runs_from_class (p : ascii -> bool) (s : string) :
  forall cur w,
    all_chars p cur = true -> In w (runs_from p cur s) ->
    all_chars p w = true.
Proof.
  induction s as [|c s IH]; intros cur w Hcur Hw; cbn [runs_from] in Hw.
  - destruct cur; [contradiction|]. destruct Hw as [<-|[]]. exact Hcur.
  - destruct (p c) eqn:Hc.
    + apply (IH (cur +:+ String c EmptyString)); [|exact Hw].
      rewrite all_chars_app, Hcur. cbn [all_chars]. rewrite Hc. reflexivity.
    + apply in_app_or in Hw as [Hw|Hw].
      * destruct cur; [contradiction|]. destruct Hw as [<-|[]]. exact Hcur.
      * apply (IH EmptyString); [reflexivity|exact Hw].
Qed.

(** Where every word character of the lowercased content is an ASCII
    letter, no digit, underscore or other word character stands next to a
    run of letters, and the words found are the alphabetic runs of two
    letters or more. *)
Lemma file_words_alphabetic_runs (content : string) :
  all_chars (fun c => Bool.eqb (is_word c) (is_ascii_letter c))
            (lower content) = true ->
  Generator.file_words content = alphabetic_runs content.
Proof.
  intros Hc. unfold Generator.file_words, alphabetic_runs.
  rewrite findall_whole_words. unfold runs.
  rewrite (runs_from_same is_word is_ascii_letter _ _ Hc).
  apply filter_ext_in. intros w Hw. unfold whole_word.
  rewrite (runs_from_class is_ascii_letter _ EmptyString w eq_refl Hw).
  reflexivity.
Qed.

Example file_words_alphabetic_runs_example :
  Generator.file_words "def Foo(): return a + Foo"
  = ["def"; "foo"; "return"; "foo"]
  /\ alphabetic_runs "def Foo(): return a + Foo"
     = ["def"; "foo"; "return"; "foo"].
Proof.
  rewrite <- file_words_alphabetic_runs by reflexivity.
  split; vm_compute; reflexivity.
Qed.

End LetterFacts.

(* ===================================================================== *)
(** ** The pattern file *)
(* ===================================================================== *)

Section PatternFile.
Import PyStr Spec Lines.

(** C7, as the specification states it, fails on an exclusion file that
    exists and cannot be read, here a directory of that name:
    [os.path.exists] is true, [open] raises, nothing in the loader catches
    the exception, and no pattern list is returned. *)
Lemma C7_counterexample :
  Generator.load_exclude_patterns
    (Unreadable "[Errno 21] Is a directory: 'exclude.txt'")
  = Raised "[Errno 21] Is a directory: 'exclude.txt'"
  /\ Languages.load_exclude_patterns
       (Unreadable "[Errno 21] Is a directory: 'exclude.txt'")
     = Raised "[Errno 21] Is a directory: 'exclude.txt'"
  /\ forall patterns,
       Generator.load_exclude_patterns
         (Unreadable "[Errno 21] Is a directory: 'exclude.txt'")
       <> Returned patterns.
Proof. split; [reflexivity|]. split; [reflexivity|]. discriminate. Qed.

(** Whatever lines cut the text of a readable file at its line feeds, and
    whatever texts are these lines without the whitespace around them, the
    loader returns those of the texts that are kept. *)
Lemma load_exclude_patterns_any_lines (content : string)
    (lines stripped : list string) :
  concat_lines lines = universal_newlines content ->
  cut_at_line_feeds lines = true ->
  Forall2 stripped_of lines stripped ->
  Generator.load_exclude_patterns (Text content)
  = Returned (List.filter kept stripped).
Proof.
  intros Hc Hw Hs. destruct (file_lines_cut content) as [Hc' Hw'].
  rewrite (stripped_lines_strip lines stripped Hs).
  rewrite (cut_at_line_feeds_unique lines (file_lines content) Hw Hw')
    by (rewrite Hc, Hc'; reflexivity).
  rewrite load_exclude_patterns_text. unfold pattern_lines. f_equal.
  apply filter_ext. exact kept_is_pattern_line.
Qed.

(** C7 (amended): the pattern loader returns the empty pattern list, and
    does not fail, when the file does not exist.  For an existing file
    that can be read as text it returns exactly the lines of the file with
    surrounding whitespace stripped, in file order, without the lines that
    are empty once stripped and those that then start with [#].  The lines
    are what cuts the text, read with universal newlines, at its line
    feeds; a stripped line is its line without the whitespace around it;
    such lines and stripped lines exist, and whichever they are, the
    patterns are the stripped lines that are kept.  Both modules carry the
    same loader; the sample file shows it at work. *)
Theorem C7_pattern_loader :
  Generator.load_exclude_patterns Missing = Returned []
  /\ Languages.load_exclude_patterns Missing = Returned []
  /\ (forall content,
        (exists lines stripped,
           concat_lines lines = universal_newlines content
           /\ cut_at_line_feeds lines = true
           /\ Forall2 stripped_of lines stripped)
        /\ forall lines stripped,
             concat_lines lines = universal_newlines content ->
             cut_at_line_feeds lines = true ->
             Forall2 stripped_of lines stripped ->
             Generator.load_exclude_patterns (Text content)
             = Returned (List.filter kept stripped)
             /\ Languages.load_exclude_patterns (Text content)
                = Returned (List.filter kept stripped))
  /\ Generator.load_exclude_patterns (Text sample_text)
     = Returned ["node_modules"; "*.pyc"; "build/"; "my file"; "last"]
  /\ Languages.load_exclude_patterns (Text sample_text)
     = Returned ["node_modules"; "*.pyc"; "build/"; "my file"; "last"].
Proof.
  split; [reflexivity|]. split; [reflexivity|]. split.
  - intros content. split.
    + destruct (load_exclude_patterns_lines content)
        as (lines & stripped & Hc & Hw & Hs & _).
      exists lines, stripped. repeat split; assumption.
    + intros lines stripped Hc Hw Hs.
      split; exact (load_exclude_patterns_any_lines content lines stripped
                      Hc Hw Hs).
  - split; vm_compute; reflexivity.
Qed.

(** The amended C7 on a file of two lines, the first with blanks around
    the pattern and a carriage return before the line feed, the second a
    comment without line end. *)
Lemma C7_pattern_loader_witness :
  concat_lines small_lines = universal_newlines small_text
  /\ cut_at_line_feeds small_lines = true
  /\ Forall2 stripped_of small_lines small_stripped
  /\ Generator.load_exclude_patterns (Text small_text) = Returned ["*.pyc"].
Proof.
  assert (Hs : Forall2 stripped_of small_lines small_stripped).
  { constructor; [|constructor; [|constructor]].
    - exists " ", ("  " +:+ String LF EmptyString).
      repeat split; reflexivity.
    - exists EmptyString, EmptyString. repeat split; reflexivity. }
  split; [reflexivity|]. split; [reflexivity|]. split; [exact Hs|].
  destruct C7_pattern_loader as (_ & _ & H & _).
  exact (proj1 (proj2 (H small_text) small_lines small_stripped
                  eq_refl eq_refl Hs)).
Defined.

End PatternFile.
